(** * OutstandingTrainingActivities: the board builder of [scripts/build.py]

    A shallow embedding of the task normalisation and column bucketing
    pipeline of [scripts/build.py] ([_as_list], [_get], [_format_due] and
    the body of [build]), followed by the properties of that pipeline.

    Python values are embedded as the inductive type [pyval]; a call that
    may raise returns a [result].  Dictionaries whose iteration order is
    never observed ([section_name_by_id], [buckets]) are finite maps, the
    sets [exclude_set] and [title_set] are finite sets. *)

From Stdlib Require Import ZArith Ascii List Permutation Sorted.
From stdpp Require Import base tactics option list numbers strings pretty
  gmap fin_maps fin_sets.

Local Open Scope Z_scope.
Set Warnings "-register-all,-clear-no-such-hyp".

(** ** Python values and exceptions *)

Module Py.

(** The exception classes the program tells apart: [except Exception]
    catches the first two, [hasattr] and three-argument [getattr] only
    the first. *)
Inductive pyexn :=
| AttributeError   (* AttributeError *)
| OtherException   (* any other subclass of Exception: TypeError, ValueError, ... *)
| BaseException.   (* outside Exception: KeyboardInterrupt, SystemExit *)

Inductive result (A : Type) :=
| Ok (a : A)
| Raise (e : pyexn).
Arguments Ok {A} a.
Arguments Raise {A} e.

Global Instance result_ret : MRet result := λ A a, Ok a.
Global Instance result_bind : MBind result := λ A B k r,
  match r with
  | Ok a => k a
  | Raise e => Raise e
  end.

(** [except Exception] *)
Definition is_Exception (e : pyexn) : bool :=
  match e with
  | BaseException => false
  | _ => true
  end.

(** [try: body / except Exception: handler] *)
Definition try_except {A} (body handler : result A) : result A :=
  match body with
  | Ok a => Ok a
  | Raise e => if is_Exception e then handler else Raise e
  end.

(** Values.  Strings are sequences of ASCII code points.  [PDict] is a
    plain [dict] with string keys, in insertion order.  [PObj] is an
    instance of a user class (the SDK's [Task], [Due], ...): [attrs] says,
    for each attribute name, what attribute-style access does, as a pair
    (the first access made on the attribute, the access that follows it);
    for an ordinary attribute both are [Ok v], a property may raise, a
    name that is not listed raises AttributeError; [mapping] is
    [Some entries] when the class derives from [dict]; [repr] is the text
    [str] gives for the instance.  An instance is no number; unless it is
    a mapping it is truthy and cannot be iterated.  Built-in values offer
    none of the attribute names the program asks for ([name], [id],
    [order], [priority], [content], [due], [labels], [section_id], [url],
    [string], [datetime], [date]); their methods are not part of the
    embedding, and neither are floating-point numbers. *)
Inductive pyval :=
| PNone
| PBool (b : bool)
| PInt (z : Z)
| PStr (s : string)
| PList (items : list pyval)
| PDict (entries : list (string * pyval))
| PObj (attrs : list (string * (result pyval * result pyval)))
       (mapping : option (list (string * pyval)))
       (repr : string).

(** First entry of an association list under a key. *)
Fixpoint assoc {A} (k : string) (l : list (string * A)) : option A :=
  match l with
  | [] => None
  | (k', v) :: l' => if String.eqb k k' then Some v else assoc k l'
  end.

(** [bool(v)] *)
Definition truthy (v : pyval) : bool :=
  match v with
  | PNone => false
  | PBool b => b
  | PInt z => negb (z =? 0)
  | PStr s => negb (String.eqb s EmptyString)
  | PList items => negb (Nat.eqb (length items) 0)
  | PDict entries => negb (Nat.eqb (length entries) 0)
  | PObj _ (Some entries) _ => negb (Nat.eqb (length entries) 0)
  | PObj _ None _ => true
  end.

(** [a or b] on values already computed *)
Definition por (a b : pyval) : pyval := if truthy a then a else b.

(** [isinstance(v, dict)], with the entries *)
Definition as_dict (v : pyval) : option (list (string * pyval)) :=
  match v with
  | PDict entries => Some entries
  | PObj _ mapping _ => mapping
  | _ => None
  end.

(** [d.get(k, default)] *)
Definition dict_get (entries : list (string * pyval)) (k : string)
    (default : pyval) : pyval :=
  match assoc k entries with
  | Some v => v
  | None => default
  end.

(** What the first access to attribute [name] does. *)
Definition attr_first (obj : pyval) (name : string) : result pyval :=
  match obj with
  | PObj attrs _ _ =>
      match assoc name attrs with
      | Some (first, _) => first
      | None => Raise AttributeError
      end
  | _ => Raise AttributeError
  end.

(** What the access following the first one does. *)
Definition attr_again (obj : pyval) (name : string) : result pyval :=
  match obj with
  | PObj attrs _ _ =>
      match assoc name attrs with
      | Some (_, again) => again
      | None => Raise AttributeError
      end
  | _ => Raise AttributeError
  end.

(** [hasattr(obj, name)]: reads the attribute and turns AttributeError,
    and nothing else, into [False]. *)
Definition hasattr (obj : pyval) (name : string) : result bool :=
  match attr_first obj name with
  | Ok _ => Ok true
  | Raise AttributeError => Ok false
  | Raise e => Raise e
  end.

(** [getattr(obj, name, default)] as the first access to the attribute *)
Definition getattr3 (obj : pyval) (name : string) (default : pyval)
    : result pyval :=
  match attr_first obj name with
  | Ok v => Ok v
  | Raise AttributeError => Ok default
  | Raise e => Raise e
  end.

(** *** Text *)

Definition ascii_code (c : ascii) : N := N_of_ascii c.

Definition dquote : ascii := ascii_of_N 34.
Definition backslash : ascii := ascii_of_N 92.

(** [str.isspace] on ASCII: TAB..CR, FS..US and the space. *)
Definition is_space (c : ascii) : bool :=
  let n := ascii_code c in
  ((9 <=? n) && (n <=? 13) || (28 <=? n) && (n <=? 32))%N.

Definition is_digit (c : ascii) : bool :=
  let n := ascii_code c in ((48 <=? n) && (n <=? 57))%N.

Definition digit_value (c : ascii) : Z := Z.of_N (ascii_code c) - 48.

Fixpoint lstrip (s : string) : string :=
  match s with
  | String c s' => if is_space c then lstrip s' else s
  | EmptyString => EmptyString
  end.

Fixpoint rstrip (s : string) : string :=
  match s with
  | String c s' =>
      match rstrip s' with
      | EmptyString => if is_space c then EmptyString else String c EmptyString
      | r => String c r
      end
  | EmptyString => EmptyString
  end.

(** [s.strip()] *)
Definition strip (s : string) : string := rstrip (lstrip s).

(** [s.split(sep)] for a one-character separator *)
Fixpoint split (sep : ascii) (s : string) : list string :=
  match s with
  | EmptyString => [EmptyString]
  | String c s' =>
      if Ascii.eqb c sep then EmptyString :: split sep s'
      else match split sep s' with
           | h :: t => String c h :: t
           | [] => [String c EmptyString]
           end
  end.

(** [s.replace(c, by)] for a one-character pattern *)
Fixpoint replace (c : ascii) (by_ : string) (s : string) : string :=
  match s with
  | EmptyString => EmptyString
  | String a s' =>
      if Ascii.eqb a c then by_ +:+ replace c by_ s'
      else String a (replace c by_ s')
  end.

(** [html.escape(s)] on a string, [quote=True] *)
Definition escape_str (s : string) : string :=
  let s := replace "&" "&amp;" s in
  let s := replace "<" "&lt;" s in
  let s := replace ">" "&gt;" s in
  let s := replace dquote "&quot;" s in
  replace "'" "&#x27;" s.

(** [html.escape(v)]: anything but a string has no [replace]. *)
Definition escape (v : pyval) : result string :=
  match v with
  | PStr s => Ok (escape_str s)
  | _ => Raise AttributeError
  end.

(** Decimal digits with single underscores between them. *)
Fixpoint digits_value (acc : Z) (after_digit : bool) (s : string)
    : option Z :=
  match s with
  | EmptyString => if after_digit then Some acc else None
  | String c s' =>
      if is_digit c then digits_value (10 * acc + digit_value c) true s'
      else if Ascii.eqb c "_" && after_digit then digits_value acc false s'
      else None
  end.

(** [int(s)] for a string: [None] stands for ValueError. *)
Definition int_of_str (s : string) : option Z :=
  match strip s with
  | String "-" s' => Z.opp <$> digits_value 0 false s'
  | String "+" s' => digits_value 0 false s'
  | s' => digits_value 0 false s'
  end.

(** [int(v)]: [None] stands for TypeError or ValueError. *)
Definition int (v : pyval) : option Z :=
  match v with
  | PBool b => Some (if b then 1 else 0)
  | PInt z => Some z
  | PStr s => int_of_str s
  | _ => None
  end.

Definition hex_digit (n : N) : ascii :=
  ascii_of_N (if (n <? 10)%N then 48 + n else 87 + n).

(** One character inside [repr] of a string quoted with [q]. *)
Definition repr_char (q : ascii) (c : ascii) : string :=
  let n := ascii_code c in
  if Ascii.eqb c q || Ascii.eqb c backslash
  then String backslash (String c EmptyString)
  else if (n =? 9)%N then String backslash "t"
  else if (n =? 10)%N then String backslash "n"
  else if (n =? 13)%N then String backslash "r"
  else if ((n <? 32) || (n =? 127))%N then
    String backslash
      (String "x" (String (hex_digit (n / 16))
                          (String (hex_digit (n mod 16)) EmptyString)))
  else String c EmptyString.

Fixpoint has_char (c : ascii) (s : string) : bool :=
  match s with
  | EmptyString => false
  | String a s' => Ascii.eqb a c || has_char c s'
  end.

Fixpoint concat_chars (f : ascii -> string) (s : string) : string :=
  match s with
  | EmptyString => EmptyString
  | String a s' => f a +:+ concat_chars f s'
  end.

(** [repr(s)] of a string: single quotes unless the string holds a
    single quote and no double quote. *)
Definition repr_str (s : string) : string :=
  let q : ascii := if has_char "'" s && negb (has_char dquote s)
                   then dquote else "'"%char in
  String q (concat_chars (repr_char q) s +:+ String q EmptyString).

Fixpoint join (sep : string) (l : list string) : string :=
  match l with
  | [] => EmptyString
  | [s] => s
  | s :: l' => s +:+ sep +:+ join sep l'
  end.

(** [repr(v)] *)
Fixpoint repr (v : pyval) : string :=
  match v with
  | PNone => "None"
  | PBool b => if b then "True" else "False"
  | PInt z => pretty z
  | PStr s => repr_str s
  | PList items => "[" +:+ join ", " (map repr items) +:+ "]"
  | PDict entries =>
      "{" +:+ join ", " (map (λ kv, repr_str (fst kv) +:+ ": " +:+ repr (snd kv))
                            entries) +:+ "}"
  | PObj _ _ r => r
  end.

(** [str(v)] *)
Definition str (v : pyval) : string :=
  match v with
  | PStr s => s
  | _ => repr v
  end.

Fixpoint chars (s : string) : list pyval :=
  match s with
  | EmptyString => []
  | String c s' => PStr (String c EmptyString) :: chars s'
  end.

(** The elements a [for] loop over [v] produces; numbers, [None] and
    plain objects are not iterable (TypeError). *)
Definition iter (v : pyval) : result (list pyval) :=
  match v with
  | PList items => Ok items
  | PStr s => Ok (chars s)
  | PDict entries => Ok (map (λ kv, PStr (fst kv)) entries)
  | PObj _ (Some entries) _ => Ok (map (λ kv, PStr (fst kv)) entries)
  | _ => Raise OtherException
  end.

End Py.
Import Py.

(** ** The helpers of [build.py] *)

(** [_as_list]: the loop over the iterable, [flat] threaded through. *)
Definition _as_list (maybe_iterable : list pyval) : list pyval :=
  fold_left
    (λ flat item,
       match item with
       | PList items => flat ++ items      (* flat.extend(item) *)
       | _ => flat ++ [item]               (* flat.append(item) *)
       end)
    maybe_iterable [].

(** [_get] *)
Definition _get (obj : pyval) (attr : string) (default : pyval)
    : result pyval :=
  has ← hasattr obj attr;
  let rest : result pyval :=
    match as_dict obj with
    | Some entries => Ok (dict_get entries attr default)
    | None => Ok default
    end in
  if has : bool then try_except (attr_again obj attr) rest else rest.

(** [_format_due] *)
Definition _format_due (due_obj : pyval) : result string :=
  if negb (truthy due_obj) then Ok EmptyString else
  s ← (a ← getattr3 due_obj "string" PNone;
       if truthy a then Ok a else
       b ← getattr3 due_obj "datetime" PNone;
       if truthy b then Ok b else
       getattr3 due_obj "date" PNone);
  if truthy s then Ok (str s) else
  match as_dict due_obj with
  | Some d =>
      Ok (str (por (dict_get d "string" PNone)
                (por (dict_get d "datetime" PNone)
                  (por (dict_get d "date" PNone) (PStr EmptyString)))))
  | None => Ok EmptyString
  end.

(** ** Sorting

    [list.sort(key=...)] is a stable sort that compares keys with [<]
    only.  It is embedded as the stable insertion sort: an element is
    put in front of the first element whose key is not smaller. *)

Section sort.
Context {A K : Type} (ltb : K → K → bool) (key : A → K).

Fixpoint insert (x : A) (l : list A) : list A :=
  match l with
  | [] => [x]
  | y :: l' => if ltb (key y) (key x) then y :: insert x l' else x :: y :: l'
  end.

Definition sort_by (l : list A) : list A := foldr insert [] l.

(** No element is followed by one with a smaller key. *)
Definition ascending (l : list A) : Prop :=
  StronglySorted (λ a b, ltb (key b) (key a) = false) l.

End sort.

(** [<] on [str]: code point by code point, a proper prefix first. *)
Fixpoint str_ltb (s1 s2 : string) : bool :=
  match s1, s2 with
  | _, EmptyString => false
  | EmptyString, String _ _ => true
  | String a s1', String b s2' =>
      if (ascii_code a <? ascii_code b)%N then true
      else if (ascii_code a =? ascii_code b)%N then str_ltb s1' s2'
      else false
  end.

(** [<] and [==] on a tuple, from those of its first element and of the
    rest: the first elements decide unless they are equal. *)
Section lex.
Context {A B : Type} (lta eqa : A → A → bool) (ltr eqr : B → B → bool).

Definition lex_ltb (x y : A * B) : bool :=
  if eqa x.1 y.1 then ltr x.2 y.2 else lta x.1 y.1.

Definition lex_eqb (x y : A * B) : bool :=
  eqa x.1 y.1 && eqr x.2 y.2.

End lex.

(** [<] on the tuples [(int, str)] and [(int, str, str)]. *)
Definition key2_ltb : Z * string → Z * string → bool :=
  lex_ltb Z.ltb Z.eqb str_ltb.

Definition key3_ltb : Z * (string * string) → Z * (string * string) → bool :=
  lex_ltb Z.ltb Z.eqb (lex_ltb str_ltb String.eqb str_ltb).

(** ** The body of [build] *)

Record view_model := {
  content : string;
  due : string;
  labels : list string;
  priority_class : string;
  url : pyval;
  section : string;
}.

(** [(os.getenv(name) or '').strip()] *)
Definition getenv_stripped (value : option string) : string :=
  strip (default EmptyString value).

(** [part.isdigit()] on ASCII *)
Fixpoint all_digits (s : string) : bool :=
  match s with
  | EmptyString => true
  | String c s' => is_digit c && all_digits s'
  end.

Definition isdigit (s : string) : bool :=
  negb (String.eqb s EmptyString) && all_digits s.

(** Lines 224-232: the set of excluded priorities. *)
Definition parse_exclude (exclude_raw : string) : gset Z :=
  if String.eqb exclude_raw EmptyString then ∅ else
  fold_left
    (λ (exclude_set : gset Z) part,
       let part := strip part in
       if isdigit part then
         match int_of_str part with
         | Some n => if (1 <=? n) && (n <=? 4) then {[n]} ∪ exclude_set
                     else exclude_set
         | None => exclude_set
         end
       else exclude_set)
    (split "," exclude_raw) ∅.

(** Lines 244-250: the dict comprehension, then the [try] around it. *)
Fixpoint section_names (sections : list pyval) (acc : gmap string pyval)
    : result (gmap string pyval) :=
  match sections with
  | [] => Ok acc
  | s :: rest =>
      sid ← _get s "id" PNone;
      name ← _get s "name" (PStr EmptyString);
      section_names rest (<[str sid := name]> acc)
  end.

Definition section_name_by_id (get_sections : result (list pyval))
    : result (gmap string pyval) :=
  try_except (sections_iter ← get_sections;
              section_names (_as_list sections_iter) ∅)
             (Ok ∅).

(** [int(v)] under [try], with the value of the [except] branch. *)
Definition int_or (fallback : Z) (v : pyval) : Z := default fallback (int v).

(** Lines 253-260: [sort_key]. *)
Definition sort_key (t : pyval) : result (Z * string) :=
  order ← _get t "order" (PInt 0);
  let order := int_or 0 (por order (PInt 0)) in
  tid ← _get t "id" (PStr EmptyString);
  mret (order, str tid).

(** The keys of a list, in order; the first failure is raised. *)
Fixpoint keys_of {A K} (key : A → result K) (l : list A)
    : result (list (K * A)) :=
  match l with
  | [] => Ok []
  | x :: l' => k ← key x; ks ← keys_of key l'; mret ((k, x) :: ks)
  end.

(** Line 262: [tasks.sort(key=sort_key)]. *)
Definition sort_tasks (tasks : list pyval) : result (list pyval) :=
  keyed ← keys_of sort_key tasks;
  mret (snd <$> sort_by key2_ltb fst keyed).

(** The priority of a task as lines 267-271 (and again 284-288) read it. *)
Definition priority_of (t : pyval) : result Z :=
  prio ← _get t "priority" (PInt 3);
  mret (int_or 3 prio).

(** Lines 267-298: one turn of the loop; [None] is [continue]. *)
Definition view_model_of (exclude_set : gset Z)
    (names : gmap string pyval) (t : pyval) : result (option view_model) :=
  prio ← priority_of t;
  if decide (prio ∈ exclude_set) then mret None else
  content ← (c ← _get t "content" (PStr EmptyString);
             escape (por c (PStr EmptyString)));
  due_str ← (d ← _get t "due" PNone; s ← _format_due d; mret (escape_str s));
  labels ← (l ← _get t "labels" (PList []);
            xs ← iter (por l (PList []));
            mret ((λ x, escape_str (str x)) <$> xs));
  section_id ← _get t "section_id" PNone;
  let section_name :=
    match section_id with
    | PNone => PStr EmptyString
    | _ => por (default (PStr EmptyString) (names !! str section_id))
               (PStr EmptyString)
    end in
  prio ← priority_of t;
  url ← (u ← _get t "url" (PStr EmptyString); mret (por u (PStr EmptyString)));
  sec ← escape section_name;
  mret (Some {| content := content;
                due := due_str;
                labels := labels;
                priority_class := "p" +:+ pretty prio;
                url := url;
                section := if String.eqb sec EmptyString then "Unassigned"
                           else sec |}).

(** Lines 265-298: the loop, [view_models] threaded through. *)
Fixpoint view_models_loop (exclude_set : gset Z) (names : gmap string pyval)
    (tasks : list pyval) (view_models : list view_model)
    : result (list view_model) :=
  match tasks with
  | [] => Ok view_models
  | t :: rest =>
      r ← view_model_of exclude_set names t;
      view_models_loop exclude_set names rest
        match r with
        | Some vm => view_models ++ [vm]
        | None => view_models
        end
  end.

(** Lines 307-311: the sections of the view models, first seen first. *)
Definition discover (view_models : list view_model) : list string :=
  fold_left
    (λ discovered t,
       let sec := section t in
       if negb (String.eqb sec EmptyString) && bool_decide (sec ∉ discovered)
       then discovered ++ [sec] else discovered)
    view_models [].

(** Lines 314-315: [remaining] bounds the turns of the [while] loop, which
    stops by itself as soon as five titles are there. *)
Fixpoint pad (remaining : nat) (col_titles : list string) : list string :=
  match remaining with
  | O => col_titles
  | S remaining' =>
      if decide (length col_titles < 5)%nat
      then pad remaining'
             (col_titles ++ ["Column " +:+ pretty (length col_titles + 1)%nat])
      else col_titles
  end.

(** Lines 302-315. *)
Definition resolve_columns (sections_env : option string)
    (view_models : list view_model) : list string :=
  let configured := getenv_stripped sections_env in
  let col_titles :=
    if negb (String.eqb configured EmptyString)
    then filter (λ s, s ≠ EmptyString) (strip <$> split "|" configured)
    else take 5 (discover view_models) in
  pad 5 col_titles.

Definition other_col : string := "Other".

(** Lines 319-328. *)
Definition bucket_tasks (col_titles : list string)
    (view_models : list view_model) : gmap string (list view_model) :=
  let buckets : gmap string (list view_model) :=
    <[other_col := []]> (list_to_map ((λ title, (title, [])) <$> col_titles)) in
  let title_set : gset string := list_to_set col_titles in
  fold_left
    (λ (buckets : gmap string (list view_model)) t,
       let sec := if String.eqb (section t) EmptyString then "Unassigned"
                  else section t in
       if decide (sec ∈ title_set)
       then alter (λ b, b ++ [t]) sec buckets
       else alter (λ b, b ++ [t]) other_col buckets)
    view_models buckets.

(** [s[1:]] *)
Definition from_1 (s : string) : string :=
  match s with
  | String _ s' => s'
  | EmptyString => EmptyString
  end.

(** Lines 331-337: [vm_sort_key]. *)
Definition vm_sort_key (t : view_model) : Z * (string * string) :=
  let pr := default 3 (int_of_str (from_1 (priority_class t))) in
  (pr, (due t, content t)).

(** What [build] hands to the template, and the count it prints. *)
Record board := {
  columns : list string;
  tasks_by_section : gmap string (list view_model);
  open_tasks : nat;
}.

(** Lines 339-347. *)
Definition order_board (col_titles : list string)
    (buckets : gmap string (list view_model)) (n : nat) : board :=
  let buckets := sort_by key3_ltb vm_sort_key <$> buckets in
  match default [] (buckets !! other_col) with
  | [] => {| columns := col_titles;
             tasks_by_section := delete other_col buckets;
             open_tasks := n |}
  | _ => {| columns := col_titles ++ [other_col];
            tasks_by_section := buckets;
            open_tasks := n |}
  end.

(** [build], from the environment ([EXCLUDE_PRIORITIES], [SECTIONS]) and
    what the API returned ([api.get_tasks], and [api.get_sections], which
    may raise).  The lookup of the project and of its name (lines
    233-237) and the rendering (lines 349-362) are left out: [build]
    returns what it hands to the template and the count it prints. *)
Definition build (exclude_env sections_env : option string)
    (tasks_iter : list pyval) (get_sections : result (list pyval))
    : result board :=
  let exclude_set := parse_exclude (getenv_stripped exclude_env) in
  let tasks := _as_list tasks_iter in
  names ← section_name_by_id get_sections;
  tasks ← sort_tasks tasks;
  view_models ← view_models_loop exclude_set names tasks [];
  let col_titles := resolve_columns sections_env view_models in
  let buckets := bucket_tasks col_titles view_models in
  mret (order_board col_titles buckets (length view_models)).

(** ** The project lookup *)

(** [s.lower()] on ASCII *)
Definition lower_char (c : ascii) : ascii :=
  let n := ascii_code c in
  if ((65 <=? n) && (n <=? 90))%N then ascii_of_N (n + 32) else c.

Fixpoint lower (s : string) : string :=
  match s with
  | EmptyString => EmptyString
  | String c s' => String (lower_char c) (lower s')
  end.

(** How [find_project_id] ends: it returns an id, leaves through
    [sys.exit(1)] after printing its message, or lets an exception of the
    API or of a record through. *)
Inductive lookup :=
| ProjectId (pid : string)
| Exit1
| Raised (e : pyexn).

(** Lines 89-94: the loop over the projects; falling out of the loop is
    lines 96-102. *)
Fixpoint find_project_loop (project_name : string) (projects : list pyval)
    : lookup :=
  match projects with
  | [] => Exit1
  | p :: rest =>
      match _get p "name" PNone with
      | Raise e => Raised e
      | Ok name =>
          if truthy name
             && String.eqb (lower (str name)) (lower project_name)
          then match _get p "id" PNone with
               | Raise e => Raised e
               | Ok pid =>
                   if truthy pid then ProjectId (str pid)
                   else find_project_loop project_name rest
               end
          else find_project_loop project_name rest
      end
  end.

(** [find_project_id], from [TODOIST_PROJECT_ID], [TODOIST_PROJECT_NAME]
    and what [api.get_projects] does. *)
Definition find_project_id (id_env name_env : option string)
    (get_projects : result (list pyval)) : lookup :=
  let project_id := getenv_stripped id_env in
  let project_name := getenv_stripped name_env in
  if negb (String.eqb project_id EmptyString) then ProjectId project_id
  else if String.eqb project_name EmptyString then Exit1
  else match get_projects with
       | Raise e => Raised e
       | Ok projects_iter =>
           find_project_loop project_name (_as_list projects_iter)
       end.

(** ** Specification-side definitions *)

(** An ordinary attribute: every access returns the same value. *)
Definition plain (v : pyval) : result pyval * result pyval := (Ok v, Ok v).

(** What one element of the iterable contributes to the flat list. *)
Definition contribution (item : pyval) : list pyval :=
  match item with
  | PList items => items
  | _ => [item]
  end.

(** What [_get] falls back on once attribute access is out. *)
Definition mapping_or_default (obj : pyval) (attr : string)
    (default : pyval) : pyval :=
  match as_dict obj with
  | Some entries => dict_get entries attr default
  | None => default
  end.

(** The sub-fields of a due value, in the order of preference. *)
Definition due_fields : list string := ["string"; "datetime"; "date"].

(** The candidates a due value offers, in the order of preference: the
    sub-fields attribute access returns, then the keys of a mapping. *)
Definition due_candidates (due_obj : pyval) : list pyval :=
  omap (λ name, match attr_first due_obj name with
                | Ok v => Some v
                | Raise _ => None
                end) due_fields
  ++ match as_dict due_obj with
     | Some d => omap (λ name, assoc name d) due_fields
     | None => []
     end.

Definition first_truthy (candidates : list pyval) : option pyval :=
  find truthy candidates.

(** The text the formatter is to return. *)
Definition due_text (due_obj : pyval) : string :=
  if truthy due_obj
  then match first_truthy (due_candidates due_obj) with
       | Some v => str v
       | None => EmptyString
       end
  else EmptyString.

(** Reading a sub-field of the due value either returns or reports the
    attribute as absent. *)
Definition quiet_due (due_obj : pyval) : bool :=
  forallb (λ name, match attr_first due_obj name with
                   | Ok _ | Raise AttributeError => true
                   | Raise _ => false
                   end) due_fields.

(** A decidable strict total order, as [<] and [==] are on [int], on
    [str] and on tuples of them. *)
Class TotalLt {K : Type} (ltb eqb : K → K → bool) := {
  eqb_eq x y : eqb x y = true ↔ x = y;
  ltb_irrefl x : ltb x x = false;
  ltb_trans x y z : ltb x y = true → ltb y z = true → ltb x z = true;
  ltb_connex x y : ltb x y = false → ltb y x = false → x = y;
}.

(** Whether the loop skips the task ([continue]). *)
Definition is_excluded (exclude_set : gset Z) (t : pyval) : bool :=
  match priority_of t with
  | Ok prio => bool_decide (prio ∈ exclude_set)
  | Raise _ => false
  end.

(** The distinct values of a list, each at its first occurrence. *)
Fixpoint first_seen (l : list string) : list string :=
  match l with
  | [] => []
  | x :: l' => x :: filter (λ y, y ≠ x) (first_seen l')
  end.

(** The sections the discovery loop looks at. *)
Definition sections_of (view_models : list view_model) : list string :=
  filter (λ sec, sec ≠ EmptyString) (section <$> view_models).

(** The synthetic title of the column at index [i] (from 0). *)
Definition column_title (i : nat) : string :=
  "Column " +:+ pretty (i + 1)%nat.

(** The titles the padding loop appends to [n] titles. *)
Definition padding (n : nat) : list string :=
  column_title <$> seq n (5 - n).

(** The titles before padding. *)
Definition base_titles (sections_env : option string)
    (view_models : list view_model) : list string :=
  let configured := getenv_stripped sections_env in
  if decide (configured ≠ EmptyString)
  then filter (λ s, s ≠ EmptyString) (strip <$> split "|" configured)
  else take 5 (first_seen (sections_of view_models)).

(** The bucket a view model goes to: its section when that is one of the
    titles, the overflow bucket otherwise. *)
Definition bucket_of (col_titles : list string) (t : view_model) : string :=
  let sec := if String.eqb (section t) EmptyString then "Unassigned"
             else section t in
  if decide (sec ∈ col_titles) then sec else other_col.

(** The view models of all buckets, and their number. *)
Definition contents (buckets : gmap string (list view_model))
    : list view_model :=
  concat (map_to_list buckets).*2.

Definition total_size (buckets : gmap string (list view_model)) : nat :=
  sum_list (length <$> (map_to_list buckets).*2).

(** The buckets before the loop (lines 319-320), and one turn of the
    loop (lines 324-328) in terms of [bucket_of]. *)
Definition initial_buckets (col_titles : list string)
    : gmap string (list view_model) :=
  <[other_col := []]> (list_to_map ((λ title, (title, [])) <$> col_titles)).

Definition bucket_step (col_titles : list string)
    (buckets : gmap string (list view_model)) (t : view_model)
    : gmap string (list view_model) :=
  alter (λ b, b ++ [t]) (bucket_of col_titles t) buckets.

(** The key of a task whose key can be computed. *)
Definition task_key (t : pyval) : Z * string :=
  match sort_key t with
  | Ok k => k
  | Raise _ => (0, EmptyString)
  end.

Definition sort_bucket : list view_model → list view_model :=
  sort_by key3_ltb vm_sort_key.

(** Whether the overflow bucket ends up empty. *)
Definition other_empty (buckets : gmap string (list view_model)) : bool :=
  match default [] (buckets !! other_col) with
  | [] => true
  | _ => false
  end.

Definition columns_of (r : result board) : option (list string) :=
  match r with
  | Ok b => Some (columns b)
  | Raise _ => None
  end.

(** The contents of the tasks the template shows under a title:
    [tasks_by_section.get(col, [])]. *)
Definition shown_under (r : result board) (title : string) : list string :=
  match r with
  | Ok b => content <$> default [] (tasks_by_section b !! title)
  | Raise _ => []
  end.

(** Whether a text is made of decimal digits, and the number they
    write after [acc]. *)
Fixpoint digits_only (s : string) : bool :=
  match s with
  | EmptyString => true
  | String c s' => is_digit c && digits_only s'
  end.

Fixpoint decimal_value (acc : Z) (s : string) : Z :=
  match s with
  | EmptyString => acc
  | String c s' => decimal_value (10 * acc + digit_value c) s'
  end.

(** Whether a project has the name asked for, up to the case of
    letters, and an id that is truthy. *)
Definition project_matches (project_name : string) (p : pyval) : bool :=
  match _get p "name" PNone, _get p "id" PNone with
  | Ok name, Ok pid =>
      truthy name && String.eqb (lower (str name)) (lower project_name)
      && truthy pid
  | _, _ => false
  end.


(** Lines 281-283: the name looked up for a section id. *)
Definition section_value (names : gmap string pyval) (section_id : pyval)
    : pyval :=
  match section_id with
  | PNone => PStr EmptyString
  | _ => por (default (PStr EmptyString) (names !! str section_id))
             (PStr EmptyString)
  end.

(** A text without the characters that open or close a tag or an
    attribute value. *)
Definition markup_free (s : string) : bool :=
  negb (has_char "<" s) && negb (has_char ">" s)
  && negb (has_char dquote s) && negb (has_char "'" s).

(** Reading the sections fails with [e]: the API call raises, or the
    access to the id or the name of a section does. *)
Definition sections_fail (get_sections : result (list pyval)) (e : pyexn)
    : Prop :=
  get_sections = Raise e
  ∨ ∃ sections_iter,
      get_sections = Ok sections_iter
      ∧ section_names (_as_list sections_iter) ∅ = Raise e.

(** Lines 185-191 of the template: for each title of [columns], in
    order, the tasks of [tasks_by_section.get(col, [])]. *)
Definition displayed (b : board) : list view_model :=
  concat ((λ col, default [] (tasks_by_section b !! col)) <$> columns b).

(** Whether a value is a list. *)
Definition is_list (v : pyval) : bool :=
  match v with
  | PList _ => true
  | _ => false
  end.

(** Whether every attribute of a record is an ordinary one: reading it
    returns, the first time and again. *)
Definition ordinary_record (obj : pyval) : bool :=
  match obj with
  | PObj attrs _ _ =>
      forallb (λ a, match a.2 with
                    | (Ok _, Ok _) => true
                    | _ => false
                    end) attrs
  | _ => true
  end.

(** The fields the program reads with [_get]. *)
Definition field_names : list string :=
  ["name"; "id"; "order"; "priority"; "content"; "due"; "labels";
   "section_id"; "url"].

(** ** Inputs of the examples *)

(** A record whose [priority] property raises ValueError. *)
Definition raising_record : pyval :=
  PObj [("priority", (Raise OtherException, Raise OtherException))] None
       "<Task>".

(** A due value with both [string] and [datetime] set. *)
Definition due_mon : pyval :=
  PObj [("string", plain (PStr "Mon"));
        ("datetime", plain (PStr "2024-01-01T00:00"))] None "<Due>".

(** A view model whose section differs from the title "To Do" by case
    only. *)
Definition vm_lower : view_model :=
  {| content := "x"; due := EmptyString; labels := []; priority_class := "p3";
     url := PStr EmptyString; section := "to do" |}.

(** One task, in a section the user named "Other". *)
Definition other_tasks : list pyval :=
  [PDict [("id", PStr "1"); ("content", PStr "A");
          ("section_id", PStr "s1")]].
Definition other_sections : list pyval :=
  [PDict [("id", PStr "s1"); ("name", PStr "Other")]].


(** The two tasks and the two sections of the end-to-end example. *)
Definition task_a : pyval :=
  PDict [("content", PStr "A"); ("priority", PInt 4);
         ("section_id", PStr "s1")].
Definition task_b : pyval :=
  PObj [("id", plain (PInt 7)); ("content", plain (PStr "B"));
        ("priority", plain (PInt 1)); ("section_id", plain (PStr "s2"))]
       None "<Task>".
Definition ex_tasks : list pyval := [task_a; task_b].
Definition ex_sections : list pyval :=
  [PDict [("id", PStr "s1"); ("name", PStr "To Do")];
   PDict [("id", PStr "s2"); ("name", PStr "Done")]].

Definition view_model_in (sec : string) : view_model :=
  {| content := "x"; due := EmptyString; labels := []; priority_class := "p3";
     url := PStr EmptyString; section := sec |}.

(** Two view models with the same key, a third with a class that is not
    a number, a fourth that comes first. *)
Definition vm_1 : view_model :=
  {| content := "read"; due := "Mon"; labels := ["first"];
     priority_class := "p3"; url := PStr EmptyString; section := "To Do" |}.
Definition vm_2 : view_model :=
  {| content := "read"; due := "Mon"; labels := ["second"];
     priority_class := "p3"; url := PStr EmptyString; section := "To Do" |}.
Definition vm_3 : view_model :=
  {| content := "plan"; due := "Mon"; labels := [];
     priority_class := "px"; url := PStr EmptyString; section := "To Do" |}.
Definition vm_4 : view_model :=
  {| content := "write"; due := "Tue"; labels := [];
     priority_class := "p1"; url := PStr EmptyString; section := "To Do" |}.

(** Priorities outside 1..4, as text, missing, and not a number. *)
Definition vm_of_priority (v : option pyval) : option view_model :=
  match view_model_of ∅ ∅
          (PDict (match v with
                  | Some v => [("priority", v)]
                  | None => []
                  end)) with
  | Ok r => r
  | Raise _ => None
  end.


Definition ex_projects : list pyval :=
  [PList [PDict [("id", PInt 11); ("name", PStr "Inbox")];
          PDict [("id", PNone); ("name", PStr "TRAINING")]];
   PList [PObj [("id", plain (PInt 12)); ("name", plain (PStr "Training"))]
               None "<Project>";
          PDict [("id", PStr "13"); ("name", PStr "training")]]].

Definition markup_task : pyval :=
  PDict [("content", PStr "<b>Read</b> & 'sign'");
         ("labels", PList [PStr "a<b"; PInt 7]);
         ("due", PDict [("string", PStr "Mon > Tue")])].

Definition markup_view_model : view_model :=
  {| content := "&lt;b&gt;Read&lt;/b&gt; &amp; &#x27;sign&#x27;";
     due := "Mon &gt; Tue"; labels := ["a&lt;b"; "7"];
     priority_class := "p3"; url := PStr EmptyString;
     section := "Unassigned" |}.

Definition ex_names : gmap string pyval :=
  {["s1" := PStr "To Do"; "s2" := PStr "Done"]}.

Definition vm_a : view_model :=
  {| content := "A"; due := EmptyString; labels := [];
     priority_class := "p4"; url := PStr EmptyString; section := "To Do" |}.

Definition twice_sections : list pyval :=
  [PDict [("id", PInt 5); ("name", PStr "Old")];
   PDict [("id", PStr "6"); ("name", PStr "Six")];
   PDict [("id", PStr "5"); ("name", PStr "New")]].

Definition done_sections : list pyval :=
  [PDict [("id", PStr "s1"); ("name", PStr "Done")];
   PDict [("id", PStr "s2"); ("name", PStr "Done")]].

Definition dict_with_attribute : pyval :=
  PObj [("priority", plain (PInt 4))] (Some [("priority", PInt 1)])
       "<Task>".

Definition six_sections : list view_model :=
  view_model_in <$> ["a"; "b"; "c"; "a"; "d"; "e"; "f"; "b"].

Definition number_task : pyval :=
  PDict [("id", PStr "9"); ("content", PInt 5)].

(** * Properties *)

(** ** The record flattener *)

Lemma as_list_loop (l flat : list pyval) :
  fold_left
    (λ flat item,
       match item with
       | PList items => flat ++ items
       | _ => flat ++ [item]
       end) l flat
  = flat ++ concat (contribution <$> l).
Proof.
  revert flat. induction l as [|item l IH]; intros flat; simpl.
  - by rewrite app_nil_r.
  - destruct item; rewrite IH; simpl; by rewrite <- ?app_assoc.
Qed.

(** C9: the flattener returns, in order, the elements of every element
    that is a list (one level only: a list inside such a list stays an
    element) and every other element itself. *)
Theorem as_list_flattens_one_level (maybe_iterable : list pyval) :
  _as_list maybe_iterable = concat (contribution <$> maybe_iterable)
  ∧ (∀ item, contribution item =
               match item with PList items => items | _ => [item] end).
Proof.
  split; [|done]. unfold _as_list. by rewrite as_list_loop.
Qed.

Example as_list_nested :
  _as_list [PInt 1; PList [PInt 2; PList [PInt 3]]; PStr "x"; PList []]
  = [PInt 1; PInt 2; PList [PInt 3]; PStr "x"].
Proof. reflexivity. Qed.

(** ** The field accessor *)

(** The attribute is returned when both accesses return. *)
Lemma get_attribute obj attr default v w :
  attr_first obj attr = Ok w → attr_again obj attr = Ok v →
  _get obj attr default = Ok v.
Proof. unfold _get, hasattr. intros -> ->. done. Qed.

(** [except Exception: pass]: the access after [hasattr] raises. *)
Lemma get_falls_through obj attr default w e :
  attr_first obj attr = Ok w → attr_again obj attr = Raise e →
  is_Exception e = true →
  _get obj attr default = Ok (mapping_or_default obj attr default).
Proof.
  unfold _get, hasattr, mapping_or_default. intros -> -> He. simpl.
  rewrite He. by destruct (as_dict obj).
Qed.

(** No such attribute: the mapping's value, or the default. *)
Lemma get_no_attribute obj attr default :
  attr_first obj attr = Raise AttributeError →
  _get obj attr default = Ok (mapping_or_default obj attr default).
Proof.
  unfold _get, hasattr, mapping_or_default. intros ->. simpl.
  by destruct (as_dict obj).
Qed.

(** [hasattr] lets through what is not an AttributeError. *)
Lemma get_probe_raises obj attr default e :
  attr_first obj attr = Raise e → e ≠ AttributeError →
  _get obj attr default = Raise e.
Proof. unfold _get, hasattr. intros -> He. by destruct e. Qed.

Lemma get_dict entries attr default :
  _get (PDict entries) attr default = Ok (dict_get entries attr default).
Proof. done. Qed.

(** The accessor returns unless the access inside [hasattr] raises
    something else than AttributeError or the access after it raises
    outside [Exception]. *)
Lemma get_returns obj attr default :
  (∀ e, attr_first obj attr = Raise e → e = AttributeError) →
  attr_again obj attr ≠ Raise BaseException →
  ∃ v, _get obj attr default = Ok v.
Proof.
  intros Hfirst Hagain. unfold _get, hasattr.
  destruct (attr_first obj attr) as [w|e] eqn:Efirst.
  - simpl. destruct (attr_again obj attr) as [v|[]]; simpl;
      try done; destruct (as_dict obj); eauto.
  - rewrite (Hfirst e eq_refl). simpl. destruct (as_dict obj); eauto.
Qed.

(** C8: on a record whose attribute raises inside [hasattr], the accessor
    raises instead of returning the default. *)
Theorem get_propagates_probe_exception :
  _get raising_record "priority" (PInt 3) = Raise OtherException.
Proof. reflexivity. Qed.

(** ** The due-date formatter *)

Lemma getattr3_quiet due_obj name :
  quiet_due due_obj = true → name ∈ due_fields →
  getattr3 due_obj name PNone
  = Ok (match attr_first due_obj name with Ok v => v | Raise _ => PNone end).
Proof.
  intros Hq Hin. unfold getattr3, quiet_due in *.
  rewrite forallb_forall in Hq. apply list_elem_of_In, Hq in Hin.
  by destruct (attr_first due_obj name) as [v|[]].
Qed.

Local Ltac due_cases :=
  repeat match goal with
    | |- context [attr_first ?o ?n] =>
        let E := fresh "E" in
        destruct (attr_first o n) as [?|[]] eqn:E; simpl
    | |- context [if truthy ?v then _ else _] =>
        let E := fresh "T" in destruct (truthy v) eqn:E; simpl
    | |- context [assoc ?k ?d] =>
        let E := fresh "K" in destruct (assoc k d) eqn:E; simpl
    | H : truthy ?v = _ |- context [truthy ?v] => rewrite H; simpl
    end.

Lemma format_due_returns due_obj s :
  _format_due due_obj = Ok s → s = due_text due_obj.
Proof.
  unfold _format_due, due_text, due_candidates, first_truthy, getattr3,
    due_fields, por, dict_get.
  destruct (truthy due_obj) eqn:Hdue; simpl; [|congruence].
  destruct (as_dict due_obj) as [d|]; simpl;
    due_cases; simpl in *; congruence.
Qed.

Lemma format_due_total due_obj :
  quiet_due due_obj = true → ∃ s, _format_due due_obj = Ok s.
Proof.
  intros Hq. unfold _format_due.
  rewrite !getattr3_quiet by (done || (unfold due_fields; set_solver)).
  simpl. destruct (truthy due_obj); simpl; [|eauto].
  repeat match goal with
    | |- context [if truthy ?v then _ else _] => destruct (truthy v); simpl
    end; destruct (as_dict due_obj); eauto.
Qed.

(** C7: the formatter returns the empty text for a falsy due value and
    otherwise the text of the first truthy candidate, sub-fields [string],
    [datetime], [date] before the keys [string], [datetime], [date] of a
    mapping (the empty text when there is none): this is what it returns
    whenever it returns, and it returns whenever reading the sub-fields
    does not raise. *)
Theorem format_due_preference (due_obj : pyval) :
  (truthy due_obj = false → _format_due due_obj = Ok EmptyString)
  ∧ (∀ s, _format_due due_obj = Ok s → s = due_text due_obj)
  ∧ (quiet_due due_obj = true →
     _format_due due_obj = Ok (due_text due_obj)).
Proof.
  split; [by unfold _format_due; intros ->|].
  split; [apply format_due_returns|].
  intros Hq. destruct (format_due_total due_obj Hq) as [s Hs].
  by rewrite Hs, (format_due_returns _ _ Hs).
Qed.

Lemma format_due_preference_witness :
  quiet_due due_mon = true
  ∧ _format_due due_mon = Ok "Mon"
  ∧ "Mon" = due_text due_mon
  ∧ _format_due PNone = Ok EmptyString.
Proof.
  destruct (format_due_preference due_mon) as (_ & Hreturns & Hquiet).
  destruct (format_due_preference PNone) as (Hfalsy & _ & _).
  split; [reflexivity|]. split; [exact (Hquiet eq_refl)|].
  split; [exact (Hreturns "Mon" eq_refl)|exact (Hfalsy eq_refl)].
Defined.

Example format_due_absent :
  _format_due PNone = Ok EmptyString
  ∧ _format_due (PStr EmptyString) = Ok EmptyString
  ∧ _format_due (PDict []) = Ok EmptyString.
Proof. repeat split. Qed.

Example format_due_mapping :
  _format_due (PDict [("date", PStr "2024-01-02");
                      ("datetime", PStr "2024-01-02T09:00");
                      ("string", PNone)])
  = Ok "2024-01-02T09:00".
Proof. reflexivity. Qed.

(** ** Orders on keys *)

Section total_lt.
  Context {K : Type} {ltb eqb : K → K → bool} `{!TotalLt ltb eqb}.

Lemma ltb_asym x y :
  ltb x y = true → ltb y x = false.
Proof.
  intros Hxy. destruct (ltb y x) eqn:Hyx; [|done].
  pose proof (ltb_trans x y x Hxy Hyx) as Hxx.
  pose proof (ltb_irrefl (ltb:=ltb) x). congruence.
Qed.

(** If [z] is below [x], any [y] is above [z] or below [x]. *)
Lemma ltb_between x y z :
  ltb z x = true → ltb y x = false → ltb z y = true.
Proof.
  intros Hzx Hyx. destruct (ltb z y) eqn:Hzy; [done|].
  destruct (ltb x y) eqn:Hxy.
  - pose proof (ltb_trans z x y Hzx Hxy). congruence.
  - pose proof (ltb_connex x y Hxy Hyx). congruence.
Qed.

End total_lt.

Global Instance Z_total_lt : TotalLt Z.ltb Z.eqb.
Proof. split; intros; lia. Qed.

Lemma ascii_code_inj a b : ascii_code a = ascii_code b → a = b.
Proof.
  unfold ascii_code. intros Hab.
  by rewrite <- (ascii_N_embedding a), <- (ascii_N_embedding b), Hab.
Qed.

Global Instance str_total_lt : TotalLt str_ltb String.eqb.
Proof.
  split.
  - apply String.eqb_eq.
  - induction x as [|a x IH]; simpl; [done|].
    by rewrite N.ltb_irrefl, N.eqb_refl.
  - induction x as [|a x IH]; intros [|b y] [|c z]; simpl; try done.
    destruct (N.ltb_spec (ascii_code a) (ascii_code b)),
      (N.ltb_spec (ascii_code b) (ascii_code c)),
      (N.ltb_spec (ascii_code a) (ascii_code c)),
      (N.eqb_spec (ascii_code a) (ascii_code b)),
      (N.eqb_spec (ascii_code b) (ascii_code c)),
      (N.eqb_spec (ascii_code a) (ascii_code c)); try done; try lia.
    apply IH.
  - induction x as [|a x IH]; intros [|b y]; simpl; try done.
    destruct (N.ltb_spec (ascii_code a) (ascii_code b)),
      (N.ltb_spec (ascii_code b) (ascii_code a)),
      (N.eqb_spec (ascii_code a) (ascii_code b)),
      (N.eqb_spec (ascii_code b) (ascii_code a)); try done; try lia.
    intros Hxy Hyx. f_equal; [by apply ascii_code_inj | by apply IH].
Qed.

Global Instance lex_total_lt {A B : Type} (lta eqa : A → A → bool)
    (ltr eqr : B → B → bool) `{!TotalLt lta eqa} `{!TotalLt ltr eqr} :
  TotalLt (lex_ltb lta eqa ltr) (lex_eqb eqa eqr).
Proof.
  split.
  - intros [a b] [a' b']. unfold lex_eqb. simpl.
    rewrite andb_true_iff, !eqb_eq.
    split; [by intros [-> ->] | by intros [= -> ->]].
  - intros [a b]. unfold lex_ltb. simpl.
    destruct (eqa a a); [apply ltb_irrefl | apply ltb_irrefl].
  - intros [a b] [a' b'] [a'' b'']. unfold lex_ltb. simpl.
    destruct (eqa a a') eqn:E1, (eqa a' a'') eqn:E2, (eqa a a'') eqn:E3;
      rewrite ?eqb_eq in *; subst; try congruence;
      try (rewrite (proj2 (eqb_eq _ _) eq_refl) in *; congruence).
    + apply ltb_trans.
    + intros H1 H2. pose proof (ltb_trans _ _ _ H1 H2) as H3.
      pose proof (ltb_irrefl (ltb:=lta) a''). congruence.
    + apply ltb_trans.
  - intros [a b] [a' b']. unfold lex_ltb. simpl.
    destruct (eqa a a') eqn:E1, (eqa a' a) eqn:E2;
      rewrite ?eqb_eq in *; subst;
      try (rewrite (proj2 (eqb_eq _ _) eq_refl) in *; congruence).
    + intros H1 H2. by rewrite (ltb_connex _ _ H1 H2).
    + intros H1 H2. pose proof (ltb_connex _ _ H1 H2) as ->.
      rewrite (proj2 (eqb_eq _ _) eq_refl) in E1. congruence.
Qed.

Global Instance key2_total_lt :
  TotalLt key2_ltb (lex_eqb Z.eqb String.eqb) := _.
Global Instance key3_total_lt :
  TotalLt key3_ltb (lex_eqb Z.eqb (lex_eqb String.eqb String.eqb)) := _.

(** ** The stable sort *)

Section sort_facts.
Context {A K : Type} {ltb eqb : K → K → bool} `{!TotalLt ltb eqb}.
Context `{!EqDecision K} (key : A → K).

Lemma insert_perm x l : insert ltb key x l ≡ₚ x :: l.
Proof.
  induction l as [|y l IH]; simpl; [done|].
  destruct (ltb (key y) (key x)); [|done].
  by rewrite IH, Permutation_swap.
Qed.

Lemma sort_by_perm l : sort_by ltb key l ≡ₚ l.
Proof.
  induction l as [|x l IH]; simpl; [done|].
  by rewrite insert_perm, IH.
Qed.

Lemma insert_ascending x l :
  ascending ltb key l → ascending ltb key (insert ltb key x l).
Proof.
  unfold ascending. induction 1 as [|y l Hl IH Hy]; simpl.
  - repeat constructor.
  - destruct (ltb (key y) (key x)) eqn:Hyx.
    + constructor; [done|].
      rewrite insert_perm. constructor; [|done].
      by apply ltb_asym.
    + constructor; [by constructor|].
      constructor; [done|].
      rewrite Forall_forall in Hy |- *. intros z Hz.
      destruct (ltb (key z) (key x)) eqn:Hzx; [|done].
      pose proof (ltb_between _ _ _ Hzx Hyx) as Hzy.
      specialize (Hy z Hz). congruence.
Qed.

Lemma sort_by_ascending l : ascending ltb key (sort_by ltb key l).
Proof.
  induction l as [|x l IH]; simpl; [constructor|].
  by apply insert_ascending.
Qed.






End sort_facts.

(** ** The view-model builder *)

Local Ltac bind_cases :=
  repeat match goal with
    | |- context [mbind _ ?e] =>
        let E := fresh "E" in destruct e eqn:E; simpl
    | |- context [mret _] => unfold mret, result_ret
    end.

Lemma view_model_of_excluded exclude_set names t :
  view_model_of exclude_set names t = Ok None
  ↔ is_excluded exclude_set t = true.
Proof.
  unfold view_model_of, is_excluded.
  destruct (priority_of t) as [prio|e]; simpl; [|done].
  case_decide as Hin.
  - by rewrite bool_decide_eq_true_2.
  - rewrite bool_decide_eq_false_2 by done.
    split; [|done]. bind_cases; done.
Qed.

Lemma view_model_of_built exclude_set names t vm :
  view_model_of exclude_set names t = Ok (Some vm) →
  ∃ prio, (priority_of t = Ok prio)
    ∧ (prio ∉ exclude_set)
    ∧ (priority_class vm = "p" +:+ pretty prio)
    ∧ (section vm ≠ EmptyString).
Proof.
  unfold view_model_of.
  destruct (priority_of t) as [prio|e]; simpl; [|done].
  case_decide as Hin; [done|].
  bind_cases; try done. intros [= <-]. simpl.
  exists prio. repeat split; try done.
  match goal with
  | |- context [String.eqb ?sec EmptyString] =>
      destruct (String.eqb sec EmptyString) eqn:Hsec; [done|];
      by apply String.eqb_neq in Hsec
  end.
Qed.

Lemma view_models_loop_acc exclude_set names tasks acc :
  view_models_loop exclude_set names tasks acc
  = vms ← view_models_loop exclude_set names tasks []; mret (acc ++ vms).
Proof.
  revert acc. induction tasks as [|t tasks IH]; intros acc; simpl.
  - by rewrite app_nil_r.
  - destruct (view_model_of exclude_set names t) as [[vm|]|e]; simpl;
      [|done..].
    rewrite (IH [vm]), (IH (acc ++ [vm])).
    destruct (view_models_loop exclude_set names tasks []); simpl; [|done].
    by rewrite <- app_assoc.
Qed.

(** The loop, one task at a time. *)
Lemma view_models_loop_cons exclude_set names t tasks :
  view_models_loop exclude_set names (t :: tasks) []
  = r ← view_model_of exclude_set names t;
    vms ← view_models_loop exclude_set names tasks [];
    mret (match r with Some vm => vm :: vms | None => vms end).
Proof.
  simpl. destruct (view_model_of exclude_set names t) as [[vm|]|e]; simpl;
    [|by destruct (view_models_loop exclude_set names tasks [])|done].
  by rewrite view_models_loop_acc.
Qed.

(** The view models are those of the tasks that are not excluded, in the
    order of the tasks. *)
Lemma view_models_loop_built exclude_set names tasks vms :
  view_models_loop exclude_set names tasks [] = Ok vms →
  Forall2 (λ t vm, view_model_of exclude_set names t = Ok (Some vm))
    (filter (λ t, is_excluded exclude_set t = false) tasks) vms.
Proof.
  revert vms. induction tasks as [|t tasks IH]; intros vms.
  - intros [= <-]. constructor.
  - rewrite view_models_loop_cons.
    destruct (view_model_of exclude_set names t) as [[vm|]|e] eqn:Ht;
      simpl; [| |done].
    + destruct (view_models_loop exclude_set names tasks []) as [vms'|];
        simpl; [|done].
      intros [= <-]. rewrite filter_cons_True.
      * constructor; [done | by apply IH].
      * destruct (is_excluded exclude_set t) eqn:Hex; [|done].
        pose proof (proj2 (view_model_of_excluded _ names _) Hex).
        congruence.
    + destruct (view_models_loop exclude_set names tasks []) as [vms'|];
        simpl; [|done].
      intros [= <-]. rewrite filter_cons_False; [by apply IH|].
      apply view_model_of_excluded in Ht. congruence.
Qed.

Lemma filter_excluded_length exclude_set (tasks : list pyval) :
  (length (filter (λ t, is_excluded exclude_set t = false) tasks)
   + length (filter (λ t, is_excluded exclude_set t = true) tasks)
   = length tasks)%nat.
Proof.
  induction tasks as [|t tasks IH]; [done|].
  rewrite !filter_cons. destruct (is_excluded exclude_set t);
    repeat case_decide; simpl; try done; lia.
Qed.

Lemma view_models_loop_length exclude_set names tasks vms :
  view_models_loop exclude_set names tasks [] = Ok vms →
  length vms
  = (length tasks
     - length (filter (λ t, is_excluded exclude_set t = true) tasks))%nat.
Proof.
  intros Hvms. apply view_models_loop_built, Forall2_length in Hvms.
  pose proof (filter_excluded_length exclude_set tasks). lia.
Qed.


(** ** The column resolver *)

Lemma elem_of_first_seen x l : x ∈ first_seen l ↔ x ∈ l.
Proof.
  induction l as [|y l IH]; simpl; [done|].
  rewrite !elem_of_cons, list_elem_of_filter, IH.
  destruct (decide (x = y)); naive_solver.
Qed.

Lemma first_seen_NoDup l : NoDup (first_seen l).
Proof.
  induction l as [|x l IH]; simpl; constructor.
  - rewrite list_elem_of_filter. naive_solver.
  - by apply NoDup_filter.
Qed.

Lemma discover_loop (view_models : list view_model) discovered :
  fold_left
    (λ discovered t,
       let sec := section t in
       if negb (String.eqb sec EmptyString) && bool_decide (sec ∉ discovered)
       then discovered ++ [sec] else discovered)
    view_models discovered
  = discovered
    ++ filter (λ sec, sec ∉ discovered) (first_seen (sections_of view_models)).
Proof.
  unfold sections_of. revert discovered.
  induction view_models as [|t vms IH]; intros discovered.
  - simpl. by rewrite app_nil_r.
  - cbn [fold_left]. rewrite IH, fmap_cons, filter_cons.
    destruct (String.eqb_spec (section t) EmptyString) as [Hsec|Hsec];
      cbn [negb andb].
    { by rewrite decide_False by (by intros []). }
    rewrite decide_True by done. cbn [first_seen].
    rewrite filter_cons, list_filter_filter.
    case_bool_decide as Hin; case_decide; try done.
    + rewrite <- app_assoc. simpl. do 2 f_equal.
      apply list_filter_iff. intros sec.
      rewrite elem_of_app, list_elem_of_singleton. naive_solver.
    + f_equal. apply list_filter_iff. intros sec. split; [|naive_solver].
      intros Hsec'. split; [done|]. intros ->. naive_solver.
Qed.

Lemma discover_first_seen view_models :
  discover view_models = first_seen (sections_of view_models).
Proof.
  unfold discover. rewrite discover_loop. simpl.
  induction (first_seen (sections_of view_models)) as [|x l IH]; [done|].
  rewrite filter_cons_True by apply not_elem_of_nil. by f_equal.
Qed.

Lemma pad_enough remaining col_titles :
  (5 - length col_titles ≤ remaining)%nat →
  pad remaining col_titles = col_titles ++ padding (length col_titles).
Proof.
  unfold padding. revert col_titles.
  induction remaining as [|n IH]; intros l Hn; simpl.
  - replace (5 - length l)%nat with 0%nat by lia. by rewrite app_nil_r.
  - case_decide as Hlen.
    + rewrite IH by (rewrite length_app; simpl; lia).
      rewrite length_app, <- app_assoc. simpl. f_equal.
      replace (5 - length l)%nat with (S (5 - (length l + 1))) by lia.
      simpl. unfold column_title. by rewrite !Nat.add_1_r.
    + replace (5 - length l)%nat with 0%nat by lia. by rewrite app_nil_r.
Qed.

(** Five turns are enough: more turns change nothing, and the condition
    of the loop is false at the end. *)
Lemma pad_turns remaining col_titles :
  (5 ≤ remaining)%nat →
  pad remaining col_titles = pad 5 col_titles
  ∧ ¬ (length (pad 5 col_titles) < 5)%nat.
Proof.
  intros Hn. rewrite !pad_enough by lia. split; [done|].
  unfold padding. rewrite length_app, length_fmap, length_seq. lia.
Qed.

Lemma padding_length n : length (padding n) = (5 - n)%nat.
Proof. unfold padding. by rewrite length_fmap, length_seq. Qed.

Lemma resolve_columns_base sections_env view_models :
  resolve_columns sections_env view_models
  = base_titles sections_env view_models
    ++ padding (length (base_titles sections_env view_models)).
Proof.
  unfold resolve_columns, base_titles.
  rewrite pad_enough by lia. rewrite discover_first_seen.
  destruct (String.eqb_spec (getenv_stripped sections_env) EmptyString);
    simpl; case_decide; done.
Qed.

(** C2: the resolved titles are the configured titles (trimmed, empty
    entries dropped, in the given order) or else the first five distinct
    sections of the view models in first-seen order, followed by the
    titles "Column N" for the positions N up to 5 that are still free;
    there are at least five of them, and exactly five when the titles
    are discovered. *)
Theorem resolve_columns_at_least_five (sections_env : option string)
    (view_models : list view_model) :
  let configured := getenv_stripped sections_env in
  let base := base_titles sections_env view_models in
  let col_titles := resolve_columns sections_env view_models in
  (base = if decide (configured ≠ EmptyString)
          then filter (λ s, s ≠ EmptyString) (strip <$> split "|" configured)
          else take 5 (first_seen (sections_of view_models)))
  ∧ (∀ i, (i < length base)%nat → col_titles !! i = base !! i)
  ∧ (∀ i, (length base ≤ i < 5)%nat →
       col_titles !! i = Some ("Column " +:+ pretty (i + 1)%nat))
  ∧ (length col_titles = max 5 (length base))
  ∧ (5 ≤ length col_titles)%nat
  ∧ (configured = EmptyString → length col_titles = 5%nat).
Proof.
  intros configured base col_titles.
  assert (col_titles = base ++ padding (length base)) as Hcols
    by apply resolve_columns_base.
  assert (length col_titles = max 5 (length base)) as Hlen.
  { rewrite Hcols, length_app, padding_length. lia. }
  split; [done|]. split; [|split; [|split; [done|split; [lia|]]]].
  - intros i Hi. by rewrite Hcols, lookup_app_l.
  - intros i Hi. rewrite Hcols, lookup_app_r by lia.
    unfold padding. rewrite list_lookup_fmap, lookup_seq_lt by lia.
    simpl. unfold column_title. do 3 f_equal. lia.
  - intros Hconf. rewrite Hlen. subst base. unfold base_titles.
    fold configured. rewrite decide_False by (by intros []).
    rewrite length_take. lia.
Qed.

(** ** Buckets *)

Lemma contents_length buckets : length (contents buckets) = total_size buckets.
Proof.
  unfold contents, total_size.
  induction ((map_to_list buckets).*2) as [|b bs IH]; simpl; [done|].
  by rewrite length_app, IH.
Qed.

Lemma contents_insert (buckets : gmap string (list view_model)) k b :
  buckets !! k = None → contents (<[k:=b]> buckets) ≡ₚ b ++ contents buckets.
Proof.
  intros Hk. unfold contents. by rewrite map_to_list_insert.
Qed.

Lemma contents_delete (buckets : gmap string (list view_model)) k b :
  buckets !! k = Some b →
  contents buckets ≡ₚ b ++ contents (delete k buckets).
Proof.
  intros Hk. unfold contents. by rewrite <- (map_to_list_delete _ _ _ Hk).
Qed.

Lemma contents_append (buckets : gmap string (list view_model)) k b t :
  buckets !! k = Some b →
  contents (alter (λ b, b ++ [t]) k buckets) ≡ₚ contents buckets ++ [t].
Proof.
  intros Hk. rewrite (alter_alt_Some _ _ _ _ Hk), <- insert_delete_eq.
  rewrite contents_insert by apply lookup_delete_eq.
  rewrite (contents_delete _ _ _ Hk).
  rewrite <- !app_assoc. apply Permutation_app_head, Permutation_app_comm.
Qed.

Lemma contents_fmap (f : list view_model → list view_model)
    (buckets : gmap string (list view_model)) :
  (∀ b, f b ≡ₚ b) → contents (f <$> buckets) ≡ₚ contents buckets.
Proof.
  intros Hf. induction buckets as [|k b m Hk IH] using map_ind.
  - by rewrite fmap_empty.
  - rewrite fmap_insert, !contents_insert, ?IH, ?Hf;
      [done..|by rewrite lookup_fmap, Hk].
Qed.

Section buckets.
Context (col_titles : list string).

Lemma bucket_tasks_fold view_models :
  bucket_tasks col_titles view_models
  = fold_left (bucket_step col_titles) view_models (initial_buckets col_titles).
Proof.
  unfold bucket_tasks. fold (initial_buckets col_titles).
  generalize (initial_buckets col_titles).
  induction view_models as [|t vms IH]; intros m; simpl; [done|].
  rewrite IH. f_equal. unfold bucket_step, bucket_of.
  repeat case_decide; set_solver.
Qed.

Lemma initial_buckets_lookup k :
  (initial_buckets col_titles) !! k
  = if decide (k ∈ col_titles ∨ k = other_col) then Some [] else None.
Proof.
  unfold initial_buckets. rewrite lookup_insert.
  case_decide as Hk; [subst; by rewrite decide_True by auto|].
  induction col_titles as [|title titles IH].
  - rewrite fmap_nil, list_to_map_nil, lookup_empty, decide_False; [done|].
    rewrite elem_of_nil. naive_solver.
  - rewrite fmap_cons, list_to_map_cons, lookup_insert, IH. clear IH.
    repeat case_decide; try done; set_solver.
Qed.

Lemma bucket_of_initial t :
  (initial_buckets col_titles) !! bucket_of col_titles t = Some [].
Proof.
  rewrite initial_buckets_lookup, decide_True; [done|].
  unfold bucket_of. case_decide; auto.
Qed.

(** Every turn appends the view model to the bucket [bucket_of]
    names, and to no other. *)
Lemma bucket_fold_lookup view_models buckets k :
  fold_left (bucket_step col_titles) view_models buckets !! k
  = (λ b, b ++ filter (λ t, bucket_of col_titles t = k) view_models)
    <$> buckets !! k.
Proof.
  revert buckets. induction view_models as [|t vms IH]; intros m; simpl.
  - destruct (m !! k); simpl; [|done]. by rewrite app_nil_r.
  - rewrite IH. unfold bucket_step. rewrite lookup_alter, filter_cons.
    case_decide as H1; [subst k|done]. destruct (m !! bucket_of col_titles t); simpl; [|done].
    by rewrite <- app_assoc.
Qed.

Lemma bucket_tasks_lookup view_models k :
  bucket_tasks col_titles view_models !! k
  = if decide (k ∈ col_titles ∨ k = other_col)
    then Some (filter (λ t, bucket_of col_titles t = k) view_models)
    else None.
Proof.
  rewrite bucket_tasks_fold, bucket_fold_lookup, initial_buckets_lookup.
  by case_decide.
Qed.

Lemma initial_buckets_contents : contents (initial_buckets col_titles) = [].
Proof.
  unfold contents.
  assert (Forall (λ b, b = []) (map_to_list (initial_buckets col_titles)).*2) as Hall.
  { rewrite Forall_fmap, Forall_forall. intros [k b] Hkb. simpl.
    apply elem_of_map_to_list in Hkb.
    rewrite initial_buckets_lookup in Hkb. by case_decide; simplify_eq. }
  induction Hall as [|b bs -> _ IH]; simpl; done.
Qed.

Lemma bucket_fold_contents view_models buckets :
  (∀ t, is_Some (buckets !! bucket_of col_titles t)) →
  contents (fold_left (bucket_step col_titles) view_models buckets)
  ≡ₚ contents buckets ++ view_models.
Proof.
  revert buckets. induction view_models as [|t vms IH]; intros m Hm; simpl.
  - by rewrite app_nil_r.
  - rewrite IH.
    + destruct (Hm t) as [b Hb]. unfold bucket_step.
      rewrite (contents_append _ _ _ _ Hb), <- app_assoc. done.
    + intros t'. unfold bucket_step. rewrite lookup_alter.
      case_decide as Heq; [|apply Hm].
      destruct (Hm t) as [b ->]. by eexists.
Qed.

(** No view model is lost and none is duplicated. *)
Lemma bucket_tasks_contents view_models :
  contents (bucket_tasks col_titles view_models) ≡ₚ view_models.
Proof.
  rewrite bucket_tasks_fold, bucket_fold_contents.
  - by rewrite initial_buckets_contents.
  - intros t. rewrite bucket_of_initial. by eexists.
Qed.
End buckets.

(** ** The task sort *)

Lemma keys_of_Ok {A K} (key : A → result K) (d : K) (l : list A) keyed :
  keys_of key l = Ok keyed →
  keyed = (λ x, (match key x with Ok k => k | Raise _ => d end, x)) <$> l
  ∧ Forall (λ x, ∃ k, key x = Ok k) l.
Proof.
  revert keyed. induction l as [|x l IH]; intros keyed; simpl.
  - intros [= <-]. by split.
  - destruct (key x) as [k|e] eqn:Hk; simpl; [|done].
    destruct (keys_of key l) as [ks|e]; simpl; [|done].
    intros [= <-]. destruct (IH ks eq_refl) as [-> Hall].
    split; [done|]. constructor; [by eexists|done].
Qed.


Lemma insert_keyed {A K} (ltb : K → K → bool) (key : A → K) x
    (keyed : list (K * A)) :
  Forall (λ kx, kx.1 = key kx.2) keyed →
  (insert ltb fst (key x, x) keyed).*2 = insert ltb key x keyed.*2.
Proof.
  induction 1 as [|[k y] keyed Hk _ IH]; [done|].
  simpl in *. subst k. destruct (ltb (key y) (key x)); [|done].
  by rewrite fmap_cons, IH.
Qed.

Lemma sort_by_keyed {A K} (ltb : K → K → bool) (key : A → K) (l : list A) :
  (sort_by ltb fst ((λ x, (key x, x)) <$> l)).*2 = sort_by ltb key l.
Proof.
  induction l as [|x l IH]; [done|].
  rewrite fmap_cons. cbn [sort_by foldr]. fold (sort_by ltb key l).
  fold (sort_by ltb fst ((λ x, (key x, x)) <$> l)).
  rewrite <- IH. apply insert_keyed.
  rewrite sort_by_perm, Forall_fmap. by apply Forall_true.
Qed.

(** Sorting the tasks is sorting them by [task_key]; it fails only when
    the key of some task cannot be computed. *)
Lemma sort_tasks_Ok tasks sorted :
  sort_tasks tasks = Ok sorted →
  sorted = sort_by key2_ltb task_key tasks
  ∧ Forall (λ t, ∃ k, sort_key t = Ok k) tasks.
Proof.
  unfold sort_tasks.
  destruct (keys_of sort_key tasks) as [keyed|e] eqn:Hkeys; simpl; [|done].
  intros [= <-].
  destruct (keys_of_Ok _ (0, EmptyString) _ _ Hkeys) as [-> Hall].
  split; [|done]. apply (sort_by_keyed key2_ltb task_key).
Qed.


(** ** The board *)

Lemma sort_bucket_perm bucket : sort_bucket bucket ≡ₚ bucket.
Proof. apply sort_by_perm. Qed.

Lemma sort_bucket_nil bucket : sort_bucket bucket = [] → bucket = [].
Proof.
  intros Hnil. apply Permutation_nil_r. by rewrite <- Hnil, sort_bucket_perm.
Qed.

Lemma other_empty_sorted buckets :
  match default [] ((sort_bucket <$> buckets) !! other_col) with
  | [] => true
  | _ => false
  end = other_empty buckets.
Proof.
  unfold other_empty. rewrite lookup_fmap.
  destruct (buckets !! other_col) as [bucket|]; [|done].
  cbn [fmap option_fmap option_map default].
  destruct (sort_bucket bucket) eqn:Hs.
  - by apply sort_bucket_nil in Hs as ->.
  - by destruct bucket.
Qed.

Lemma order_board_columns col_titles buckets n :
  columns (order_board col_titles buckets n)
  = if other_empty buckets then col_titles else col_titles ++ [other_col].
Proof.
  unfold order_board. fold sort_bucket.
  rewrite <- other_empty_sorted.
  by destruct (default [] ((sort_bucket <$> buckets) !! other_col)).
Qed.

Lemma order_board_buckets col_titles buckets n :
  tasks_by_section (order_board col_titles buckets n)
  = if other_empty buckets then delete other_col (sort_bucket <$> buckets)
    else sort_bucket <$> buckets.
Proof.
  unfold order_board. fold sort_bucket.
  rewrite <- other_empty_sorted.
  by destruct (default [] ((sort_bucket <$> buckets) !! other_col)).
Qed.

Lemma order_board_open_tasks col_titles buckets n :
  open_tasks (order_board col_titles buckets n) = n.
Proof. unfold order_board. by case_match. Qed.

Lemma order_board_contents col_titles buckets n :
  contents (tasks_by_section (order_board col_titles buckets n))
  ≡ₚ contents buckets.
Proof.
  rewrite order_board_buckets. unfold other_empty.
  destruct (buckets !! other_col) as [bucket|] eqn:Hother; simpl.
  - destruct bucket as [|vm bucket];
      [|by apply contents_fmap, sort_bucket_perm].
    rewrite <- (contents_fmap sort_bucket buckets) by apply sort_bucket_perm.
    rewrite (contents_delete (sort_bucket <$> buckets) other_col []); [done|].
    by rewrite lookup_fmap, Hother.
  - rewrite delete_id by (by rewrite lookup_fmap, Hother).
    apply contents_fmap, sort_bucket_perm.
Qed.

(** A bucket of the board is a bucket of the partition, sorted; only an
    empty overflow bucket is dropped. *)
Lemma order_board_lookup col_titles buckets n k :
  tasks_by_section (order_board col_titles buckets n) !! k
  = if decide (k = other_col ∧ other_empty buckets = true) then None
    else sort_bucket <$> buckets !! k.
Proof.
  rewrite order_board_buckets.
  destruct (other_empty buckets) eqn:Hempty.
  - rewrite lookup_delete, lookup_fmap.
    repeat case_decide; naive_solver.
  - rewrite lookup_fmap, decide_False; naive_solver.
Qed.

(** What [build] computes when it returns. *)
Lemma build_Ok exclude_env sections_env tasks_iter get_sections b :
  build exclude_env sections_env tasks_iter get_sections = Ok b →
  ∃ names sorted view_models,
    section_name_by_id get_sections = Ok names
    ∧ sort_tasks (_as_list tasks_iter) = Ok sorted
    ∧ view_models_loop (parse_exclude (getenv_stripped exclude_env))
        names sorted [] = Ok view_models
    ∧ b = order_board (resolve_columns sections_env view_models)
            (bucket_tasks (resolve_columns sections_env view_models)
               view_models)
            (length view_models).
Proof.
  unfold build.
  destruct (section_name_by_id get_sections) as [names|e]; simpl; [|done].
  destruct (sort_tasks (_as_list tasks_iter)) as [sorted|e]; simpl; [|done].
  destruct (view_models_loop _ _ sorted []) as [vms|e] eqn:Hvms; simpl;
    [|done].
  intros [= <-]. by exists names, sorted, vms.
Qed.

(** C1: when [build] returns, the view models are those of the tasks
    that are not excluded; each of them is in the bucket of its section
    or, when its section is no title, in the overflow bucket, and in no
    other bucket; the buckets together hold the view models, each once;
    their sizes add up to the number of tasks minus the number of
    excluded tasks, which is also the count [build] reports. *)
Theorem buckets_partition_view_models
    (exclude_env sections_env : option string) (tasks_iter : list pyval)
    (get_sections : result (list pyval)) (b : board) :
  build exclude_env sections_env tasks_iter get_sections = Ok b →
  let exclude_set := parse_exclude (getenv_stripped exclude_env) in
  let tasks := _as_list tasks_iter in
  ∃ (names : gmap string pyval) (sorted : list pyval)
    (view_models : list view_model),
    let col_titles := resolve_columns sections_env view_models in
    section_name_by_id get_sections = Ok names
    ∧ sorted ≡ₚ tasks
    ∧ Forall2 (λ t vm, view_model_of exclude_set names t = Ok (Some vm))
        (filter (λ t, is_excluded exclude_set t = false) sorted) view_models
    ∧ (∀ vm, vm ∈ view_models →
         ∃ bucket, tasks_by_section b !! bucket_of col_titles vm = Some bucket
                   ∧ vm ∈ bucket)
    ∧ (∀ k bucket, tasks_by_section b !! k = Some bucket →
         bucket ≡ₚ filter (λ vm, bucket_of col_titles vm = k) view_models)
    ∧ (∀ k1 k2 bucket1 bucket2 vm,
         tasks_by_section b !! k1 = Some bucket1 →
         tasks_by_section b !! k2 = Some bucket2 →
         vm ∈ bucket1 → vm ∈ bucket2 → k1 = k2)
    ∧ contents (tasks_by_section b) ≡ₚ view_models
    ∧ total_size (tasks_by_section b)
      = (length tasks
         - length (filter (λ t, is_excluded exclude_set t = true) tasks))%nat
    ∧ open_tasks b = total_size (tasks_by_section b).
Proof.
  intros Hb exclude_set tasks.
  destruct (build_Ok _ _ _ _ _ Hb)
    as (names & sorted & vms & Hnames & Hsort & Hvms & ->).
  exists names, sorted, vms. intros col_titles.
  fold exclude_set tasks col_titles in Hsort, Hvms |- *.
  assert (sorted ≡ₚ tasks) as Hperm.
  { apply sort_tasks_Ok in Hsort as [-> _]. apply sort_by_perm. }
  assert (∀ k bucket,
    tasks_by_section (order_board col_titles (bucket_tasks col_titles vms)
                        (length vms)) !! k = Some bucket →
    bucket ≡ₚ filter (λ vm, bucket_of col_titles vm = k) vms) as Hbucket.
  { intros k bucket. rewrite order_board_lookup, bucket_tasks_lookup.
    repeat case_decide; try done.
    simpl. intros [= <-]. apply sort_bucket_perm. }
  assert (contents (tasks_by_section
            (order_board col_titles (bucket_tasks col_titles vms)
               (length vms))) ≡ₚ vms) as Hcontents.
  { by rewrite order_board_contents, bucket_tasks_contents. }
  assert (total_size (tasks_by_section
            (order_board col_titles (bucket_tasks col_titles vms)
               (length vms))) = length vms) as Hsize.
  { by rewrite <- contents_length, Hcontents. }
  split; [done|]. split; [done|]. split; [by apply view_models_loop_built|].
  split; [|split; [done|split; [|split; [done|split]]]].
  - intros vm Hvm.
    rewrite order_board_lookup, bucket_tasks_lookup.
    set (k := bucket_of col_titles vm).
    assert (vm ∈ filter (λ vm', bucket_of col_titles vm' = k) vms) as Hin
      by (by apply list_elem_of_filter).
    rewrite (decide_True (P := k ∈ col_titles ∨ k = other_col)).
    2:{ unfold k, bucket_of. case_decide; auto. }
    case_decide as Hother.
    + destruct Hother as [Hk Hempty]. unfold other_empty in Hempty.
      rewrite bucket_tasks_lookup, decide_True in Hempty by auto.
      simpl in Hempty. rewrite <- Hk in Hempty.
      destruct (filter _ vms); [by apply elem_of_nil in Hin|done].
    + simpl. eexists. split; [done|]. by rewrite sort_bucket_perm.
  - intros k1 k2 bucket1 bucket2 vm H1 H2 Hin1 Hin2.
    rewrite (Hbucket _ _ H1) in Hin1. rewrite (Hbucket _ _ H2) in Hin2.
    apply list_elem_of_filter in Hin1 as [<- _].
    by apply list_elem_of_filter in Hin2 as [<- _].
  - rewrite Hsize, (view_models_loop_length _ _ _ _ Hvms).
    by rewrite Hperm.
  - by rewrite order_board_open_tasks, Hsize.
Qed.

(** ** Decimal text *)

Lemma digits_value_digits s acc after_digit :
  digits_only s = true →
  digits_value acc after_digit s
  = match s with
    | EmptyString => if after_digit then Some acc else None
    | _ => Some (decimal_value acc s)
    end.
Proof.
  revert acc after_digit. induction s as [|c s IH]; intros acc b; [done|].
  simpl. intros [Hc Hs]%andb_true_iff. rewrite Hc, IH by done.
  by destruct s.
Qed.

Lemma decimal_value_acc s acc :
  decimal_value acc s
  = acc * 10 ^ Z.of_nat (String.length s) + decimal_value 0 s.
Proof.
  revert acc. induction s as [|c s IH]; intros acc; simpl String.length.
  - simpl. lia.
  - cbn [decimal_value]. rewrite (IH (10 * acc + _)), (IH (10 * 0 + _)).
    rewrite Nat2Z.inj_succ, Z.pow_succ_r by lia. lia.
Qed.

Lemma pretty_N_char_digit n :
  (n < 10)%N →
  is_digit (pretty_N_char n) = true
  ∧ digit_value (pretty_N_char n) = Z.of_N n.
Proof.
  intros Hn.
  assert (n ∈ [0; 1; 2; 3; 4; 5; 6; 7; 8; 9]%N) as Hin.
  { rewrite !elem_of_cons. lia. }
  rewrite !elem_of_cons, elem_of_nil in Hin.
  destruct Hin as [->|[->|[->|[->|[->|[->|[->|[->|[->|[->|[]]]]]]]]]]];
    by vm_compute.
Qed.

Lemma pretty_N_go_digits n s :
  digits_only s = true →
  digits_only (pretty_N_go n s) = true
  ∧ decimal_value 0 (pretty_N_go n s)
    = Z.of_N n * 10 ^ Z.of_nat (String.length s) + decimal_value 0 s
  ∧ (pretty_N_go n s = EmptyString → s = EmptyString ∧ n = 0%N).
Proof.
  revert s. induction (N.lt_wf_0 n) as [n _ IH]; intros s Hs.
  destruct (decide (n = 0%N)) as [->|Hn].
  { rewrite pretty_N_go_0. split; [done|]. split; [lia|done]. }
  rewrite pretty_N_go_step by lia.
  destruct (pretty_N_char_digit (n `mod` 10)) as [Hd Hv];
    [by apply N.mod_lt|].
  destruct (IH (n `div` 10)%N) with
    (s := String (pretty_N_char (n `mod` 10)) s) as (H1 & H2 & H3).
  { apply N.div_lt; lia. }
  { simpl. by rewrite Hd, Hs. }
  split; [done|]. split.
  - rewrite H2. cbn [decimal_value String.length].
    rewrite (decimal_value_acc s (10 * 0 + _)), Hv.
    rewrite Nat2Z.inj_succ, Z.pow_succ_r by lia.
    pose proof (N.div_mod n 10). lia.
  - intros Hnil. by destruct (H3 Hnil).
Qed.

Lemma strip_no_space s :
  (∀ c, has_char c s = true → is_space c = false) → strip s = s.
Proof.
  intros Hs. unfold strip.
  assert (lstrip s = s) as ->.
  { destruct s as [|c s]; [done|]. simpl.
    by rewrite (Hs c) by (simpl; by rewrite Ascii.eqb_refl). }
  induction s as [|c s IH]; [done|]. simpl.
  rewrite IH.
  - rewrite (Hs c) by (simpl; by rewrite Ascii.eqb_refl). by destruct s.
  - intros c' Hc'. apply Hs. simpl. by rewrite Hc', orb_true_r.
Qed.

Lemma digits_only_char s c :
  digits_only s = true → has_char c s = true → is_digit c = true.
Proof.
  induction s as [|a s IH]; simpl; [done|].
  intros [Ha Hs]%andb_true_iff [Hc|Hc]%orb_true_iff; [|by apply IH].
  by apply Ascii.eqb_eq in Hc as ->.
Qed.

Lemma is_digit_not_space c : is_digit c = true → is_space c = false.
Proof.
  unfold is_digit, is_space. cbv zeta.
  intros [H1%N.leb_le H2%N.leb_le]%andb_true_iff.
  apply orb_false_iff; split; apply andb_false_iff; right;
    apply N.leb_gt; lia.
Qed.

Lemma int_of_digits s :
  digits_only s = true → s ≠ EmptyString →
  int_of_str s = Some (decimal_value 0 s).
Proof.
  intros Hs Hne. unfold int_of_str.
  rewrite strip_no_space
    by (intros c Hc; eapply is_digit_not_space, digits_only_char; done).
  destruct s as [|c s]; [done|].
  assert (is_digit c = true) as Hc by (by apply andb_true_iff in Hs as [? _]).
  rewrite <- (digits_value_digits (String c s)) with (after_digit:=false)
    by done.
  destruct c as [[] [] [] [] [] [] [] []]; try done.
Qed.

(** The text [str] gives for an integer is read back by [int]. *)
Lemma int_of_str_pretty (z : Z) : int_of_str (pretty z) = Some z.
Proof.
  assert (∀ p : positive,
    digits_only (pretty p) = true ∧ pretty p ≠ EmptyString
    ∧ decimal_value 0 (pretty p) = Z.pos p) as Hpos.
  { intros p. unfold pretty, pretty_positive, pretty, pretty_N.
    rewrite decide_False by done.
    destruct (pretty_N_go_digits (N.pos p) EmptyString eq_refl)
      as (H1 & H2 & H3).
    split; [done|]. split; [by intros [_ ?]%H3|].
    rewrite H2. simpl. lia. }
  destruct z as [|p|p]; [done| |].
  - destruct (Hpos p) as (H1 & H2 & H3).
    change (pretty (Z.pos p)) with (pretty p).
    by rewrite int_of_digits, H3.
  - destruct (Hpos p) as (H1 & H2 & H3).
    change (pretty (Z.neg p)) with ("-" +:+ pretty p).
    unfold int_of_str. rewrite strip_no_space.
    + simpl. rewrite digits_value_digits by done.
      destruct (pretty p); [done|]. simpl in *. by rewrite H3.
    + change ("-" +:+ pretty p) with (String "-" (pretty p)).
      intros c Hc. cbn [has_char] in Hc.
      apply orb_true_iff in Hc as [Hc|Hc].
      * by apply Ascii.eqb_eq in Hc as <-.
      * eapply is_digit_not_space, digits_only_char; done.
Qed.

(** The priority the bucket sorter reads back from the class of a view
    model is the priority of its task: the fallback of [vm_sort_key] is
    never taken for a view model the builder made. *)
Lemma vm_sort_key_built exclude_set names t vm :
  view_model_of exclude_set names t = Ok (Some vm) →
  priority_of t = Ok (vm_sort_key vm).1.
Proof.
  intros (prio & Hp & _ & Hc & _)%view_model_of_built.
  rewrite Hp. unfold vm_sort_key. cbn [fst]. rewrite Hc.
  change (from_1 ("p" +:+ pretty prio)) with (pretty prio).
  by rewrite int_of_str_pretty.
Qed.

(** ** The overflow column *)

(** The overflow column is appended, last, exactly when the overflow
    bucket holds a view model. *)
Lemma other_column_appended col_titles view_models n :
  columns (order_board col_titles (bucket_tasks col_titles view_models) n)
  = if decide (filter (λ vm, bucket_of col_titles vm = other_col) view_models
               = [])
    then col_titles else col_titles ++ [other_col].
Proof.
  rewrite order_board_columns. unfold other_empty.
  rewrite bucket_tasks_lookup, decide_True by auto. simpl.
  destruct (filter _ view_models); by case_decide.
Qed.

Example bucket_of_case_sensitive :
  bucket_of ["To Do"; "Done"] vm_lower = "Other"
  ∧ bucket_tasks ["To Do"; "Done"] [vm_lower] !! "To Do" = Some []
  ∧ bucket_tasks ["To Do"; "Done"] [vm_lower] !! "Other" = Some [vm_lower].
Proof. repeat split. Qed.

(** When no title is "Other", the column "Other" is there exactly when
    some view model has a section that is no title. *)
Lemma other_column_iff_unmatched col_titles view_models n :
  other_col ∉ col_titles →
  Forall (λ vm, section vm ≠ EmptyString) view_models →
  other_col
    ∈ columns (order_board col_titles (bucket_tasks col_titles view_models) n)
  ↔ ∃ vm, vm ∈ view_models ∧ section vm ∉ col_titles.
Proof.
  intros Hother Hsec. rewrite other_column_appended.
  assert (∀ vm, vm ∈ view_models →
    bucket_of col_titles vm = other_col ↔ section vm ∉ col_titles) as Hof.
  { intros vm Hvm. unfold bucket_of.
    rewrite Forall_forall in Hsec. specialize (Hsec vm Hvm).
    apply String.eqb_neq in Hsec. rewrite Hsec.
    case_decide as Hin; [|done]. split; [|done].
    intros Heq. by rewrite Heq in Hin. }
  case_decide as Hnil.
  - split; [done|]. intros (vm & Hvm & Hno).
    assert (vm ∈ filter (λ vm, bucket_of col_titles vm = other_col)
                   view_models) as Hin.
    { apply list_elem_of_filter. split; [by apply Hof|done]. }
    rewrite Hnil in Hin. by apply elem_of_nil in Hin.
  - split; [|intros _; set_solver].
    intros _. destruct (filter _ view_models) as [|vm l] eqn:Hf; [done|].
    assert (vm ∈ filter (λ vm, bucket_of col_titles vm = other_col)
                   view_models) as Hin by (rewrite Hf; left).
    apply list_elem_of_filter in Hin as [Hvm Hin].
    exists vm. split; [done|]. by apply Hof.
Qed.

(** C3: with one task whose section is named "Other", the section is a
    resolved title and yet the overflow column is appended: the final
    ordering names "Other" twice. *)
Theorem other_column_with_section_named_other :
  columns_of (build None None other_tasks (Ok other_sections))
  = Some ["Other"; "Column 2"; "Column 3"; "Column 4"; "Column 5"; "Other"]
  ∧ shown_under (build None None other_tasks (Ok other_sections)) "Other"
    = ["A"].
Proof. split; reflexivity. Qed.

(** ** The bucket sorter *)

Lemma key3_ltb_spec (k1 k2 : Z * (string * string)) :
  key3_ltb k1 k2 = true
  ↔ k1.1 < k2.1
    ∨ (k1.1 = k2.1
       ∧ (str_ltb k1.2.1 k2.2.1 = true
          ∨ (k1.2.1 = k2.2.1 ∧ str_ltb k1.2.2 k2.2.2 = true))).
Proof.
  destruct k1 as [p1 [d1 c1]], k2 as [p2 [d2 c2]].
  unfold key3_ltb, lex_ltb. simpl.
  destruct (Z.eqb_spec p1 p2) as [->|Hp].
  - destruct (String.eqb_spec d1 d2) as [->|Hd].
    + rewrite (ltb_irrefl (ltb:=str_ltb)). split; [auto|].
      intros [?|[_ [?|[_ ?]]]]; (done || lia).
    + split; [auto|]. intros [?|[_ [?|[? _]]]]; (done || lia).
  - rewrite Z.ltb_lt. split; [auto|]. intros [?|[? _]]; done.
Qed.


(** ** Removing an element before sorting *)

Section sort_remove.
Context {A K : Type} {ltb eqb : K → K → bool} `{!TotalLt ltb eqb}.
Context (key : A → K).




End sort_remove.



(** ** Exclusion and the priority class *)





(** ** Arrival order *)








(** ** Examples *)

Example build_example :
  columns_of (build None (Some "To Do|Done") ex_tasks (Ok ex_sections))
  = Some ["To Do"; "Done"; "Column 3"; "Column 4"; "Column 5"]
  ∧ shown_under (build None (Some "To Do|Done") ex_tasks (Ok ex_sections))
      "To Do" = ["A"]
  ∧ shown_under (build None (Some "To Do|Done") ex_tasks (Ok ex_sections))
      "Done" = ["B"].
Proof. repeat split. Qed.

Example build_example_excluding_4 :
  columns_of (build (Some "4") (Some "To Do|Done") ex_tasks (Ok ex_sections))
  = Some ["To Do"; "Done"; "Column 3"; "Column 4"; "Column 5"]
  ∧ shown_under (build (Some "4") (Some "To Do|Done") ex_tasks
                   (Ok ex_sections)) "To Do" = []
  ∧ shown_under (build (Some "4") (Some "To Do|Done") ex_tasks
                   (Ok ex_sections)) "Done" = ["B"].
Proof. repeat split. Qed.

Example resolve_columns_sizes :
  Forall (λ n, length (resolve_columns None
                         (view_model_in ∘ pretty <$> seq 0 n)) = 5%nat)
    [0; 1; 3; 5; 12]%nat.
Proof. repeat constructor. Qed.

Example resolve_columns_three :
  resolve_columns None (view_model_in <$> ["a"; "b"; "a"; "c"])
  = ["a"; "b"; "c"; "Column 4"; "Column 5"].
Proof. reflexivity. Qed.

Example resolve_columns_configured :
  resolve_columns (Some " To Do | |Done|a|b|c|d ") []
  = ["To Do"; "Done"; "a"; "b"; "c"; "d"].
Proof. reflexivity. Qed.

Lemma buckets_partition_view_models_witness :
  ∃ b, build (Some "4") (Some "To Do|Done") ex_tasks (Ok ex_sections) = Ok b
       ∧ total_size (tasks_by_section b) = 1%nat
       ∧ open_tasks b = 1%nat.
Proof.
  eexists. split; [reflexivity|].
  destruct (buckets_partition_view_models
              (Some "4") (Some "To Do|Done") ex_tasks (Ok ex_sections) _
              eq_refl)
    as (names & sorted & vms & _ & _ & _ & _ & _ & _ & _ & Hsize & Hopen).
  rewrite Hopen, Hsize. split; reflexivity.
Defined.

Lemma resolve_columns_at_least_five_witness :
  length (resolve_columns None (view_model_in <$> ["a"; "b"; "a"; "c"]))
  = 5%nat
  ∧ resolve_columns None (view_model_in <$> ["a"; "b"; "a"; "c"]) !! 3%nat
    = Some "Column 4".
Proof.
  destruct (resolve_columns_at_least_five None
              (view_model_in <$> ["a"; "b"; "a"; "c"]))
    as (_ & _ & Hpad & _ & _ & Hfive).
  split; [by apply Hfive|]. apply (Hpad 3%nat). vm_compute. lia.
Defined.

Example sort_bucket_example :
  sort_bucket [vm_1; vm_2; vm_3; vm_4] = [vm_4; vm_3; vm_1; vm_2]
  ∧ sort_bucket [vm_2; vm_1; vm_3; vm_4] = [vm_4; vm_3; vm_2; vm_1].
Proof. split; reflexivity. Qed.



Example priority_classes :
  priority_class <$> vm_of_priority (Some (PInt 0)) = Some "p0"
  ∧ priority_class <$> vm_of_priority (Some (PInt 5)) = Some "p5"
  ∧ priority_class <$> vm_of_priority (Some (PInt (-2))) = Some "p-2"
  ∧ priority_class <$> vm_of_priority (Some (PStr " 4 ")) = Some "p4"
  ∧ priority_class <$> vm_of_priority (Some (PStr "high")) = Some "p3"
  ∧ priority_class <$> vm_of_priority (Some PNone) = Some "p3"
  ∧ priority_class <$> vm_of_priority None = Some "p3".
Proof. repeat split. Qed.



(** * Further properties *)

(** ** The project lookup *)

Lemma find_project_loop_found project_name projects pid :
  find_project_loop project_name projects = ProjectId pid →
  ∃ before p after id_value,
    projects = before ++ p :: after
    ∧ Forall (λ q, project_matches project_name q = false) before
    ∧ project_matches project_name p = true
    ∧ _get p "id" PNone = Ok id_value
    ∧ pid = str id_value.
Proof.
  induction projects as [|q projects IH]; [done|]. simpl.
  destruct (_get q "name" PNone) as [name|e] eqn:Hname; [|done].
  destruct (truthy name && String.eqb (lower (str name)) (lower project_name))
    eqn:Hmatch.
  - destruct (_get q "id" PNone) as [id_value|e] eqn:Hid; [|done].
    destruct (truthy id_value) eqn:Htruthy.
    + intros [= <-]. exists [], q, projects, id_value.
      repeat split; [constructor| |done].
      unfold project_matches. by rewrite Hname, Hid, Hmatch, Htruthy.
    + intros (before & p & after & v & -> & Hbefore & Hp)%IH.
      exists (q :: before), p, after, v. split; [done|].
      split; [|done]. constructor; [|done].
      unfold project_matches. by rewrite Hname, Hid, Hmatch, Htruthy.
  - intros (before & p & after & v & -> & Hbefore & Hp)%IH.
    exists (q :: before), p, after, v. split; [done|].
    split; [|done]. constructor; [|done].
    unfold project_matches. rewrite Hname, Hmatch.
    by destruct (_get q "id" PNone).
Qed.

Lemma find_project_loop_exit project_name projects :
  find_project_loop project_name projects = Exit1 →
  Forall (λ q, project_matches project_name q = false) projects.
Proof.
  induction projects as [|q projects IH]; [constructor|]. simpl.
  destruct (_get q "name" PNone) as [name|e] eqn:Hname; [|done].
  destruct (truthy name && String.eqb (lower (str name)) (lower project_name))
    eqn:Hmatch.
  - destruct (_get q "id" PNone) as [id_value|e] eqn:Hid; [|done].
    destruct (truthy id_value) eqn:Htruthy; [done|].
    intros Hexit%IH. constructor; [|done].
    unfold project_matches. by rewrite Hname, Hid, Hmatch, Htruthy.
  - intros Hexit%IH. constructor; [|done].
    unfold project_matches. rewrite Hname, Hmatch.
    by destruct (_get q "id" PNone).
Qed.

(** X1: an id the lookup returns is the configured project id or, when
    none is configured, the id (as text) of the first project, in the
    order of the flattened listing, whose name is the configured name up
    to the case of letters and whose id is truthy. *)
Theorem find_project_id_first_match (id_env name_env : option string)
    (get_projects : result (list pyval)) (pid : string) :
  find_project_id id_env name_env get_projects = ProjectId pid →
  (getenv_stripped id_env ≠ EmptyString ∧ pid = getenv_stripped id_env)
  ∨ (getenv_stripped id_env = EmptyString
     ∧ ∃ projects_iter before p after id_value,
         get_projects = Ok projects_iter
         ∧ _as_list projects_iter = before ++ p :: after
         ∧ Forall (λ q, project_matches (getenv_stripped name_env) q = false)
             before
         ∧ project_matches (getenv_stripped name_env) p = true
         ∧ _get p "id" PNone = Ok id_value
         ∧ pid = str id_value).
Proof.
  unfold find_project_id.
  destruct (String.eqb_spec (getenv_stripped id_env) EmptyString)
    as [Hid|Hid]; simpl.
  - destruct (String.eqb (getenv_stripped name_env) EmptyString); [done|].
    destruct get_projects as [projects_iter|e]; [|done].
    intros (before & p & after & v & H)%find_project_loop_found.
    right. split; [done|]. by exists projects_iter, before, p, after, v.
  - intros [= <-]. by left.
Qed.

Lemma find_project_id_first_match_witness :
  find_project_id None (Some " training ") (Ok ex_projects) = ProjectId "12"
  ∧ find_project_id (Some "99") (Some "training") (Raise OtherException)
    = ProjectId "99".
Proof.
  assert (find_project_id None (Some " training ") (Ok ex_projects)
          = ProjectId "12") as H12 by reflexivity.
  assert (find_project_id (Some "99") (Some "training")
            (Raise OtherException) = ProjectId "99") as H99 by reflexivity.
  destruct (find_project_id_first_match _ _ _ _ H12)
    as [[Hset _]|(_ & it & before & p & after & v & _)];
    [by vm_compute in Hset|].
  destruct (find_project_id_first_match _ _ _ _ H99) as [[_ _]|[Hunset _]];
    [|by vm_compute in Hunset].
  split; [exact H12|exact H99].
Defined.

(** X2: the lookup leaves through [sys.exit(1)] only when no project id is
    configured and either no project name is configured (the projects are
    then not fetched) or no fetched project has the configured name, up to
    the case of letters, together with a truthy id; an empty listing is
    such a case. *)
Theorem find_project_id_exit (id_env name_env : option string)
    (get_projects : result (list pyval)) :
  find_project_id id_env name_env get_projects = Exit1 →
  getenv_stripped id_env = EmptyString
  ∧ (getenv_stripped name_env = EmptyString
     ∨ ∃ projects_iter,
         get_projects = Ok projects_iter
         ∧ Forall (λ q, project_matches (getenv_stripped name_env) q = false)
             (_as_list projects_iter)).
Proof.
  unfold find_project_id.
  destruct (String.eqb_spec (getenv_stripped id_env) EmptyString)
    as [Hid|Hid]; simpl; [|done].
  destruct (String.eqb_spec (getenv_stripped name_env) EmptyString)
    as [Hname|Hname]; [by auto|].
  destruct get_projects as [projects_iter|e]; [|done].
  intros Hexit%find_project_loop_exit. split; [done|]. right.
  by exists projects_iter.
Qed.

Lemma find_project_id_exit_witness :
  find_project_id None (Some "Archive") (Ok ex_projects) = Exit1
  ∧ find_project_id None (Some "Archive") (Ok []) = Exit1
  ∧ find_project_id (Some "  ") None (Raise OtherException) = Exit1.
Proof.
  assert (find_project_id None (Some "Archive") (Ok ex_projects) = Exit1)
    as H1 by reflexivity.
  assert (find_project_id None (Some "Archive") (Ok []) = Exit1)
    as H2 by reflexivity.
  assert (find_project_id (Some "  ") None (Raise OtherException) = Exit1)
    as H3 by reflexivity.
  destruct (find_project_id_exit _ _ _ H1) as [_ _].
  destruct (find_project_id_exit _ _ _ H2) as [_ _].
  destruct (find_project_id_exit _ _ _ H3) as [_ _].
  split; [exact H1|]. split; [exact H2|exact H3].
Defined.

Lemma find_project_loop_lower project_name project_name' projects :
  lower project_name = lower project_name' →
  find_project_loop project_name projects
  = find_project_loop project_name' projects.
Proof.
  intros Hlower. induction projects as [|q projects IH]; [done|]. simpl.
  by rewrite Hlower, IH.
Qed.

Lemma lower_empty s : lower s = EmptyString ↔ s = EmptyString.
Proof. by destruct s. Qed.

(** X3: the case of the letters of the configured project name does not
    matter: two names that differ by case only give the same lookup. *)
Theorem find_project_id_case_insensitive (id_env name_env name_env' :
    option string) (get_projects : result (list pyval)) :
  lower (getenv_stripped name_env) = lower (getenv_stripped name_env') →
  find_project_id id_env name_env get_projects
  = find_project_id id_env name_env' get_projects.
Proof.
  intros Hlower. unfold find_project_id.
  destruct (negb (String.eqb (getenv_stripped id_env) EmptyString)); [done|].
  destruct (String.eqb_spec (getenv_stripped name_env) EmptyString)
    as [Hn|Hn], (String.eqb_spec (getenv_stripped name_env') EmptyString)
    as [Hn'|Hn']; try done.
  - rewrite Hn in Hlower. simpl in Hlower. symmetry in Hlower.
    by destruct (Hn' (proj1 (lower_empty _) Hlower)).
  - rewrite Hn' in Hlower. simpl in Hlower.
    by destruct (Hn (proj1 (lower_empty _) Hlower)).
  - destruct get_projects; [|done]. by apply find_project_loop_lower.
Qed.

Lemma find_project_id_case_insensitive_witness :
  find_project_id None (Some "TRAINING") (Ok ex_projects)
  = find_project_id None (Some "training") (Ok ex_projects).
Proof.
  by apply (find_project_id_case_insensitive None (Some "TRAINING")
              (Some "training") (Ok ex_projects)).
Defined.

(** ** The excluded priorities *)




Example parse_exclude_example :
  parse_exclude (getenv_stripped (Some " 4, 04 ,x,7,+1,, 2")) = {[2; 4]}
  ∧ parse_exclude (getenv_stripped None) = ∅
  ∧ parse_exclude (getenv_stripped (Some " , ")) = ∅.
Proof. repeat split; by vm_compute. Qed.




Lemma filter_excluded_empty (tasks : list pyval) :
  filter (λ t, is_excluded ∅ t = true) tasks = [].
Proof.
  induction tasks as [|t l IH]; [done|].
  rewrite filter_cons_False; [done|].
  unfold is_excluded. destruct (priority_of t); [|done].
  by rewrite bool_decide_eq_false_2 by set_solver.
Qed.

(** X6: with [EXCLUDE_PRIORITIES] unset or blank no task is skipped: the
    count [build] reports is the number of tasks of the flattened
    listing. *)
Theorem nothing_excluded_when_unset (exclude_env sections_env : option string)
    (tasks_iter : list pyval) (get_sections : result (list pyval))
    (b : board) :
  getenv_stripped exclude_env = EmptyString →
  build exclude_env sections_env tasks_iter get_sections = Ok b →
  open_tasks b = length (_as_list tasks_iter)
  ∧ total_size (tasks_by_section b) = length (_as_list tasks_iter).
Proof.
  intros Hunset Hb.
  destruct (build_Ok _ _ _ _ _ Hb)
    as (names & sorted & vms & _ & Hsort & Hvms & ->).
  rewrite Hunset in Hvms.
  assert (length vms = length (_as_list tasks_iter)) as Hlen.
  { rewrite (view_models_loop_length _ _ _ _ Hvms).
    apply sort_tasks_Ok in Hsort as [-> _]. rewrite sort_by_perm.
    change (parse_exclude EmptyString) with (∅ : gset Z).
    rewrite filter_excluded_empty. simpl. lia. }
  rewrite order_board_open_tasks. split; [done|].
  by rewrite <- contents_length, order_board_contents, bucket_tasks_contents.
Qed.

Lemma nothing_excluded_when_unset_witness :
  ∃ b, build (Some "  ") None ex_tasks (Ok ex_sections) = Ok b
       ∧ open_tasks b = 2%nat.
Proof.
  eexists. split; [reflexivity|].
  by destruct (nothing_excluded_when_unset (Some "  ") None ex_tasks
                 (Ok ex_sections) _ eq_refl eq_refl) as [-> _].
Defined.

(** ** The fields of a view model *)

Local Ltac field_cases :=
  repeat (simpl;
    match goal with
    | |- context [_get ?t ?f ?d] =>
        let G := fresh "G" in destruct (_get t f d) eqn:G
    | |- context [escape ?v] =>
        let G := fresh "G" in destruct (escape v) eqn:G
    | |- context [_format_due ?v] =>
        let G := fresh "G" in destruct (_format_due v) eqn:G
    | |- context [iter ?v] =>
        let G := fresh "G" in destruct (iter v) eqn:G
    end).

Lemma view_model_of_fields exclude_set names t vm :
  view_model_of exclude_set names t = Ok (Some vm) →
  (∃ c, _get t "content" (PStr EmptyString) = Ok c
        ∧ escape (por c (PStr EmptyString)) = Ok (content vm))
  ∧ (∃ d s, _get t "due" PNone = Ok d ∧ _format_due d = Ok s
            ∧ due vm = escape_str s)
  ∧ (∃ l xs, _get t "labels" (PList []) = Ok l
             ∧ iter (por l (PList [])) = Ok xs
             ∧ labels vm = (λ x, escape_str (str x)) <$> xs)
  ∧ (∃ sid sec, _get t "section_id" PNone = Ok sid
                ∧ escape (section_value names sid) = Ok sec
                ∧ section vm = if String.eqb sec EmptyString
                               then "Unassigned" else sec)
  ∧ (∃ u, _get t "url" (PStr EmptyString) = Ok u
          ∧ url vm = por u (PStr EmptyString)).
Proof.
  unfold view_model_of.
  destruct (priority_of t) as [prio|e]; simpl; [|done].
  case_decide as Hin; [done|].
  fold (section_value names).
  field_cases; try done.
  unfold mret, result_ret. intros [= <-]. simpl.
  repeat split; eauto 10.
Qed.

Lemma has_char_app c s1 s2 :
  has_char c (s1 +:+ s2) = has_char c s1 || has_char c s2.
Proof.
  induction s1 as [|a s1 IH]; simpl; [done|]. by rewrite IH, orb_assoc.
Qed.

Lemma has_char_replace c a r s :
  has_char c (replace a r s)
  = (has_char a s && has_char c r) || (negb (Ascii.eqb a c) && has_char c s).
Proof.
  induction s as [|x s IH]; simpl; [by rewrite andb_false_r|].
  destruct (Ascii.eqb_spec x a) as [->|Hxa]; simpl.
  - rewrite has_char_app, IH.
    destruct (Ascii.eqb a c), (has_char c r), (has_char a s),
      (has_char c s); done.
  - rewrite IH. destruct (Ascii.eqb_spec x c) as [->|Hxc]; simpl.
    + destruct (Ascii.eqb_spec a c) as [->|_]; [done|]. simpl.
      by rewrite orb_true_r.
    + done.
Qed.

Lemma escape_str_markup_free s : markup_free (escape_str s) = true.
Proof.
  unfold markup_free, escape_str. rewrite !has_char_replace. simpl.
  repeat match goal with
    | |- context [has_char ?c s] => destruct (has_char c s)
    end; done.
Qed.

Lemma escape_Ok v s :
  escape v = Ok s → ∃ text, v = PStr text ∧ s = escape_str text.
Proof. destruct v; try done. intros [= <-]. eauto. Qed.

(** X7: the texts of a view model the builder makes (content, due, every
    label, section) hold none of the characters <, >, double quote and
    single quote; the section is never empty. *)
Theorem view_model_texts_escaped (exclude_set : gset Z)
    (names : gmap string pyval) (t : pyval) (vm : view_model) :
  view_model_of exclude_set names t = Ok (Some vm) →
  markup_free (content vm) = true
  ∧ markup_free (due vm) = true
  ∧ Forall (λ label, markup_free label = true) (labels vm)
  ∧ markup_free (section vm) = true
  ∧ section vm ≠ EmptyString.
Proof.
  intros Hvm.
  destruct (view_model_of_fields _ _ _ _ Hvm)
    as ((c & _ & Hc) & (d & s & _ & _ & Hd) & (l & xs & _ & _ & Hl)
        & (sid & sec & _ & Hsec & Hs) & _).
  apply escape_Ok in Hc as (text & _ & ->).
  apply escape_Ok in Hsec as (stext & _ & ->).
  rewrite Hd, Hl, Hs. repeat split.
  - apply escape_str_markup_free.
  - apply escape_str_markup_free.
  - apply Forall_fmap, Forall_true. intros x. apply escape_str_markup_free.
  - destruct (String.eqb _ _); [done|apply escape_str_markup_free].
  - destruct (String.eqb_spec (escape_str stext) EmptyString); done.
Qed.

Lemma view_model_texts_escaped_witness :
  view_model_of ∅ ∅ markup_task = Ok (Some markup_view_model)
  ∧ markup_free (content markup_view_model) = true.
Proof.
  assert (view_model_of ∅ ∅ markup_task = Ok (Some markup_view_model))
    as Hvm by reflexivity.
  split; [exact Hvm|].
  by destruct (view_model_texts_escaped _ _ _ _ Hvm) as (Hc & _).
Defined.

(** ** The names of the sections *)

Lemma section_names_sound sections acc names k v :
  section_names sections acc = Ok names →
  names !! k = Some v →
  acc !! k = Some v
  ∨ ∃ s i, s ∈ sections ∧ _get s "id" PNone = Ok i ∧ str i = k
           ∧ _get s "name" (PStr EmptyString) = Ok v.
Proof.
  revert acc. induction sections as [|s sections IH]; intros acc; simpl.
  - intros [= <-]. auto.
  - destruct (_get s "id" PNone) as [i|] eqn:Hi; simpl; [|done].
    destruct (_get s "name" (PStr EmptyString)) as [n|] eqn:Hn; simpl;
      [|done].
    intros Hnames Hk. destruct (IH _ Hnames Hk) as [Hacc|(s' & i' & Hin & H)].
    + rewrite lookup_insert in Hacc. case_decide as Heq; [|by auto].
      injection Hacc as <-. right. exists s, i. split; [left|done].
    + right. exists s', i'. split; [by right|done].
Qed.

Lemma section_names_app sections1 sections2 acc :
  section_names (sections1 ++ sections2) acc
  = names ← section_names sections1 acc; section_names sections2 names.
Proof.
  revert acc. induction sections1 as [|s sections1 IH]; intros acc; [done|].
  simpl. destruct (_get s "id" PNone); simpl; [|done].
  destruct (_get s "name" (PStr EmptyString)); simpl; [|done]. apply IH.
Qed.

Lemma section_names_other sections acc names k :
  section_names sections acc = Ok names →
  Forall (λ s, ∀ i, _get s "id" PNone = Ok i → str i ≠ k) sections →
  names !! k = acc !! k.
Proof.
  revert acc. induction sections as [|s sections IH]; intros acc; simpl.
  - by intros [= <-].
  - destruct (_get s "id" PNone) as [i|] eqn:Hi; simpl; [|done].
    destruct (_get s "name" (PStr EmptyString)) as [n|]; simpl; [|done].
    intros Hnames [Hs Hall]%Forall_cons. rewrite (IH _ Hnames Hall).
    apply lookup_insert_ne. by apply Hs.
Qed.

(** X8: the section of a view model is "Unassigned" or the escaped name
    of a fetched section whose id, as text, is the section id of the
    task, as text. *)
Theorem section_of_view_model (exclude_set : gset Z)
    (sections_iter : list pyval) (names : gmap string pyval)
    (t : pyval) (vm : view_model) :
  section_name_by_id (Ok sections_iter) = Ok names →
  view_model_of exclude_set names t = Ok (Some vm) →
  section vm = "Unassigned"
  ∨ ∃ s i name sid,
      s ∈ _as_list sections_iter
      ∧ _get s "id" PNone = Ok i
      ∧ _get s "name" (PStr EmptyString) = Ok (PStr name)
      ∧ _get t "section_id" PNone = Ok sid
      ∧ str i = str sid
      ∧ section vm = escape_str name.
Proof.
  intros Hnames Hvm.
  destruct (view_model_of_fields _ _ _ _ Hvm)
    as (_ & _ & _ & (sid & sec & Hsid & Hsec & Hs) & _).
  apply escape_Ok in Hsec as (text & Hvalue & ->). rewrite Hs.
  destruct (String.eqb_spec (escape_str text) EmptyString) as [|Hne];
    [by left|].
  unfold section_value in Hvalue.
  destruct (names !! str sid) as [v|] eqn:Hlookup.
  2:{ destruct sid; simpl in Hvalue; by injection Hvalue as <-. }
  assert (section_names (_as_list sections_iter) ∅ = Ok names) as Hloop.
  { unfold section_name_by_id in Hnames. simpl in Hnames.
    destruct (section_names (_as_list sections_iter) ∅) as [m|e]; [done|].
    simpl in Hnames. destruct (is_Exception e); [|done].
    injection Hnames as <-. by rewrite lookup_empty in Hlookup. }
  destruct (section_names_sound _ _ _ _ _ Hloop Hlookup)
    as [Hempty|(s & i & Hin & Hi & Hstr & Hname)];
    [by rewrite lookup_empty in Hempty|].
  assert (text = EmptyString ∨ v = PStr text) as [-> | ->].
  { assert (PStr EmptyString = PStr text
            ∨ por v (PStr EmptyString) = PStr text) as [H|H]
      by (destruct sid; simpl in Hvalue; auto).
    - left. by injection H.
    - unfold por in H. destruct (truthy v); [by right|].
      left. by injection H. }
  - done.
  - right. by exists s, i, text, sid.
Qed.

Lemma section_of_view_model_witness :
  section_name_by_id (Ok ex_sections) = Ok ex_names
  ∧ view_model_of ∅ ex_names task_a = Ok (Some vm_a)
  ∧ (section vm_a = "Unassigned"
     ∨ ∃ s i name sid,
         s ∈ _as_list ex_sections
         ∧ _get s "id" PNone = Ok i
         ∧ _get s "name" (PStr EmptyString) = Ok (PStr name)
         ∧ _get task_a "section_id" PNone = Ok sid
         ∧ str i = str sid
         ∧ section vm_a = escape_str name).
Proof.
  assert (section_name_by_id (Ok ex_sections) = Ok ex_names) as Hnames
    by (by vm_compute).
  assert (view_model_of ∅ ex_names task_a = Ok (Some vm_a)) as Hvm
    by (by vm_compute).
  split; [exact Hnames|]. split; [exact Hvm|].
  exact (section_of_view_model ∅ ex_sections ex_names task_a vm_a Hnames Hvm).
Defined.

(** X9: when two fetched sections have the same id, as text, the name of
    the later one is the one kept: the name under an id is that of the
    last section of the flattened listing with that id, unless reading the
    sections failed (no name is kept then). *)
Theorem section_names_last_wins (sections_iter : list pyval)
    (names : gmap string pyval) (before after : list pyval)
    (s i name : pyval) :
  section_name_by_id (Ok sections_iter) = Ok names →
  _as_list sections_iter = before ++ s :: after →
  _get s "id" PNone = Ok i →
  _get s "name" (PStr EmptyString) = Ok name →
  Forall (λ s', ∀ i', _get s' "id" PNone = Ok i' → str i' ≠ str i) after →
  names !! str i = Some name ∨ names = ∅.
Proof.
  intros Hnames Hsplit Hi Hname Hafter.
  unfold section_name_by_id in Hnames. simpl in Hnames.
  destruct (section_names (_as_list sections_iter) ∅) as [m|e] eqn:Hloop;
    simpl in Hnames.
  2:{ destruct (is_Exception e); [|done]. injection Hnames as <-. by right. }
  injection Hnames as <-. left.
  rewrite Hsplit, section_names_app in Hloop.
  destruct (section_names before ∅) as [m0|]; simpl in Hloop; [|done].
  rewrite Hi, Hname in Hloop. simpl in Hloop.
  rewrite (section_names_other _ _ _ _ Hloop Hafter).
  apply lookup_insert_eq.
Qed.

Lemma section_names_last_wins_witness :
  section_name_by_id (Ok twice_sections)
  = Ok {["5" := PStr "New"; "6" := PStr "Six"]}
  ∧ ({["5" := PStr "New"; "6" := PStr "Six"]} : gmap string pyval) !! "5"
    = Some (PStr "New").
Proof.
  assert (section_name_by_id (Ok twice_sections)
          = Ok {["5" := PStr "New"; "6" := PStr "Six"]}) as Hnames
    by (by vm_compute).
  split; [exact Hnames|].
  destruct (section_names_last_wins twice_sections _
              [PDict [("id", PInt 5); ("name", PStr "Old")];
               PDict [("id", PStr "6"); ("name", PStr "Six")]] []
              (PDict [("id", PStr "5"); ("name", PStr "New")])
              (PStr "5") (PStr "New") Hnames eq_refl eq_refl eq_refl
              (Forall_nil_2 _)) as [Hlast|Hempty].
  - exact Hlast.
  - by vm_compute.
Defined.

(** ** A failed fetch of the sections *)

Lemma sections_fail_empty get_sections e :
  sections_fail get_sections e → is_Exception e = true →
  section_name_by_id get_sections = Ok ∅.
Proof.
  unfold section_name_by_id.
  intros [->|(it & -> & Hloop)] He; simpl; [by rewrite He|].
  rewrite Hloop. simpl. by rewrite He.
Qed.

Lemma view_model_without_names exclude_set t vm :
  view_model_of exclude_set ∅ t = Ok (Some vm) → section vm = "Unassigned".
Proof.
  intros Hvm.
  destruct (view_model_of_fields _ _ _ _ Hvm)
    as (_ & _ & _ & (sid & sec & _ & Hsec & ->) & _).
  assert (section_value ∅ sid = PStr EmptyString) as Hvalue
    by (unfold section_value; rewrite lookup_empty; by destruct sid).
  rewrite Hvalue in Hsec. by injection Hsec as <-.
Qed.

Lemma filter_all_equal (x : string) (l : list string) :
  Forall (λ y, y = x) l → filter (λ y, y ≠ x) l = [].
Proof.
  induction 1 as [|y l -> _ IH]; [done|]. by rewrite filter_cons_False by auto.
Qed.

Lemma first_seen_all_equal (x : string) (l : list string) :
  l ≠ [] → Forall (λ y, y = x) l → first_seen l = [x].
Proof.
  intros Hne Hall. destruct Hall as [|y l -> Hall]; [done|]. simpl.
  rewrite filter_all_equal; [done|].
  apply Forall_forall. intros z Hz%(proj1 (elem_of_first_seen _ _)).
  rewrite Forall_forall in Hall. by apply Hall.
Qed.

(** X10: when reading the sections fails with an exception that
    [except Exception] catches, [build] goes on without section names:
    every view model of the board has the section "Unassigned", and with
    [SECTIONS] unset and at least one task left the board has the columns
    "Unassigned", "Column 2", ..., "Column 5" with all tasks under
    "Unassigned". *)
Theorem sections_failure_unassigned (exclude_env sections_env : option string)
    (tasks_iter : list pyval) (get_sections : result (list pyval))
    (e : pyexn) (b : board) :
  sections_fail get_sections e →
  is_Exception e = true →
  build exclude_env sections_env tasks_iter get_sections = Ok b →
  (∀ k bucket vm, tasks_by_section b !! k = Some bucket → vm ∈ bucket →
                  section vm = "Unassigned")
  ∧ (getenv_stripped sections_env = EmptyString → open_tasks b ≠ 0%nat →
     columns b
     = ["Unassigned"; "Column 2"; "Column 3"; "Column 4"; "Column 5"]
     ∧ ∃ bucket, tasks_by_section b !! "Unassigned" = Some bucket
                 ∧ length bucket = open_tasks b).
Proof.
  intros Hfail He Hb.
  destruct (build_Ok _ _ _ _ _ Hb)
    as (names & sorted & vms & Hnames & _ & Hvms & ->).
  rewrite (sections_fail_empty _ _ Hfail He) in Hnames.
  injection Hnames as <-.
  assert (Forall (λ vm, section vm = "Unassigned") vms) as Hall.
  { apply view_models_loop_built in Hvms.
    apply Forall_forall. intros vm [i Hi]%list_elem_of_lookup.
    destruct (Forall2_lookup_r _ _ _ _ _ Hvms Hi) as (t & _ & Hvm).
    by eapply view_model_without_names. }
  split.
  - intros k bucket vm. rewrite order_board_lookup, bucket_tasks_lookup.
    repeat case_decide; try done. simpl. intros [= <-].
    rewrite sort_bucket_perm. intros [_ Hin]%list_elem_of_filter.
    rewrite Forall_forall in Hall. by apply Hall.
  - intros Hunset Hsome. rewrite order_board_open_tasks in Hsome.
    set (titles := ["Unassigned"; "Column 2"; "Column 3"; "Column 4";
                    "Column 5"]).
    assert (resolve_columns sections_env vms = titles) as ->.
    { rewrite resolve_columns_base. unfold base_titles.
      rewrite Hunset, decide_False by (by intros []).
      unfold sections_of.
      rewrite (first_seen_all_equal "Unassigned"); [done| |].
      - destruct vms as [|vm vms]; [done|].
        apply Forall_cons in Hall as [Hvm _].
        rewrite fmap_cons, filter_cons_True by (by rewrite Hvm). done.
      - apply Forall_forall. intros sec [_ Hin]%list_elem_of_filter.
        apply list_elem_of_fmap in Hin as (vm & -> & Hin).
        rewrite Forall_forall in Hall. by apply Hall. }
    assert (filter (λ vm, bucket_of titles vm = "Unassigned") vms = vms)
      as Hmine.
    { clear Hb Hvms Hsome. induction Hall as [|vm vms Hvm _ IH]; [done|].
      rewrite filter_cons_True by (unfold bucket_of; by rewrite Hvm).
      by rewrite IH. }
    assert (filter (λ vm, bucket_of titles vm = other_col) vms = []) as Hother.
    { clear Hb Hvms Hsome Hmine. induction Hall as [|vm vms Hvm _ IH]; [done|].
      by rewrite filter_cons_False by (unfold bucket_of; by rewrite Hvm). }
    split.
    + by rewrite other_column_appended, Hother.
    + exists (sort_bucket vms).
      rewrite order_board_lookup, bucket_tasks_lookup, Hmine.
      rewrite decide_False by (by intros [? _]).
      rewrite decide_True by (left; set_solver).
      split; [done|].
      by rewrite order_board_open_tasks, sort_bucket_perm.
Qed.

Lemma sections_failure_unassigned_witness :
  columns_of (build None None ex_tasks (Raise OtherException))
  = Some ["Unassigned"; "Column 2"; "Column 3"; "Column 4"; "Column 5"]
  ∧ shown_under (build None None ex_tasks (Raise OtherException))
      "Unassigned" = ["B"; "A"].
Proof.
  destruct (build None None ex_tasks (Raise OtherException)) as [b|]
    eqn:Hb; [|by vm_compute in Hb].
  destruct (sections_failure_unassigned None None ex_tasks
              (Raise OtherException) OtherException b
              (or_introl eq_refl) eq_refl Hb) as [_ Hcols].
  split; [|vm_compute in Hb; by injection Hb as <-].
  simpl. f_equal. apply Hcols; [reflexivity|].
  vm_compute in Hb. by injection Hb as <-.
Defined.

(** ** What the template lists *)

Lemma elem_of_concat {A} (x : A) (ls : list (list A)) :
  x ∈ concat ls ↔ ∃ l, l ∈ ls ∧ x ∈ l.
Proof.
  induction ls as [|l ls IH]; simpl.
  - split; [by intros ?%elem_of_nil|]. by intros (l & ?%elem_of_nil & _).
  - rewrite elem_of_app, IH. split.
    + intros [?|(l' & ? & ?)]; [exists l|exists l']; split;
        (done || by left || by right).
    + intros (l' & [->|?]%elem_of_cons & ?); [by left|right; by exists l'].
Qed.

Lemma elem_of_contents (buckets : gmap string (list view_model)) vm :
  vm ∈ contents buckets
  ↔ ∃ k bucket, buckets !! k = Some bucket ∧ vm ∈ bucket.
Proof.
  unfold contents. rewrite elem_of_concat. split.
  - intros (bucket & Hin & Hvm).
    apply list_elem_of_fmap in Hin as ([k bucket'] & -> & Hin).
    apply elem_of_map_to_list in Hin. by exists k, bucket'.
  - intros (k & bucket & Hk & Hvm). exists bucket. split; [|done].
    apply list_elem_of_fmap. exists (k, bucket). split; [done|].
    by apply elem_of_map_to_list.
Qed.

Lemma contents_all_empty (buckets : gmap string (list view_model)) :
  (∀ k bucket, buckets !! k = Some bucket → bucket = []) →
  contents buckets = [].
Proof.
  intros Hall. destruct (contents buckets) as [|vm l] eqn:Hc; [done|].
  assert (vm ∈ contents buckets) as Hin by (rewrite Hc; left).
  apply elem_of_contents in Hin as (k & bucket & Hk & Hvm).
  rewrite (Hall _ _ Hk) in Hvm. by apply elem_of_nil in Hvm.
Qed.

Lemma concat_lookups (buckets : gmap string (list view_model))
    (titles : list string) :
  NoDup titles →
  (∀ k bucket, buckets !! k = Some bucket → bucket ≠ [] → k ∈ titles) →
  concat ((λ col, default [] (buckets !! col)) <$> titles)
  ≡ₚ contents buckets.
Proof.
  intros Hnd. revert buckets.
  induction Hnd as [|k titles Hk Hnd IH]; intros m Hkeys.
  - simpl. rewrite contents_all_empty; [done|].
    intros k bucket Hlookup. destruct bucket as [|vm bucket]; [done|].
    by apply (Hkeys k) in Hlookup as ?%elem_of_nil.
  - rewrite fmap_cons. simpl.
    destruct (m !! k) as [bucket|] eqn:Hlookup; simpl.
    + assert ((λ col, default [] (m !! col)) <$> titles
              = (λ col, default [] (delete k m !! col)) <$> titles) as ->.
      { apply list_fmap_ext. intros i col Hcol.
        rewrite lookup_delete_ne; [done|].
        intros ->. by apply list_elem_of_lookup_2 in Hcol. }
      rewrite (contents_delete _ _ _ Hlookup). f_equiv. apply IH.
      * intros k' bucket' Hk' Hne.
        rewrite lookup_delete in Hk'. case_decide; [done|].
        pose proof (Hkeys _ _ Hk' Hne) as [->|?]%elem_of_cons; done.
    + apply IH. intros k' bucket' Hk' Hne.
      pose proof (Hkeys _ _ Hk' Hne) as [->|?]%elem_of_cons; [|done].
      congruence.
Qed.

Lemma board_keys_shown col_titles view_models n k bucket :
  tasks_by_section (order_board col_titles
                      (bucket_tasks col_titles view_models) n) !! k
  = Some bucket →
  bucket ≠ [] →
  k ∈ columns (order_board col_titles
                 (bucket_tasks col_titles view_models) n).
Proof.
  rewrite order_board_lookup, order_board_columns.
  case_decide as Hother; [done|]. rewrite bucket_tasks_lookup.
  case_decide as Hk; [|done]. simpl. intros [= <-] Hne.
  destruct (other_empty _) eqn:Hempty.
  - destruct Hk as [?| ->]; [done|]. destruct Hother. by split.
  - rewrite elem_of_app, list_elem_of_singleton. tauto.
Qed.

(** X11: every view model of the board is listed by the template under
    at least one column; when the titles of the final ordering are
    pairwise distinct the template lists every view model exactly once,
    as many tasks as [build] reports. *)
Theorem every_task_displayed (exclude_env sections_env : option string)
    (tasks_iter : list pyval) (get_sections : result (list pyval))
    (b : board) :
  build exclude_env sections_env tasks_iter get_sections = Ok b →
  (∀ vm, vm ∈ contents (tasks_by_section b) → vm ∈ displayed b)
  ∧ length (contents (tasks_by_section b)) = open_tasks b
  ∧ (NoDup (columns b) →
     displayed b ≡ₚ contents (tasks_by_section b)
     ∧ length (displayed b) = open_tasks b).
Proof.
  intros Hb.
  destruct (build_Ok _ _ _ _ _ Hb) as (names & sorted & vms & _ & _ & _ & ->).
  set (titles := resolve_columns sections_env vms).
  assert (length (contents (tasks_by_section
            (order_board titles (bucket_tasks titles vms) (length vms))))
          = open_tasks (order_board titles (bucket_tasks titles vms)
                          (length vms))) as Hlen.
  { by rewrite order_board_contents, bucket_tasks_contents,
      order_board_open_tasks. }
  split; [|split; [done|]].
  - intros vm (k & bucket & Hk & Hvm)%elem_of_contents.
    unfold displayed. apply elem_of_concat. exists bucket. split; [|done].
    apply list_elem_of_fmap. exists k. split; [by rewrite Hk|].
    eapply board_keys_shown; [done|]. intros ->. by apply elem_of_nil in Hvm.
  - intros Hnd.
    assert (displayed (order_board titles (bucket_tasks titles vms)
                         (length vms))
            ≡ₚ contents (tasks_by_section
                 (order_board titles (bucket_tasks titles vms) (length vms))))
      as Hperm.
    { apply concat_lookups; [done|]. intros k bucket. apply board_keys_shown. }
    split; [done|]. by rewrite Hperm.
Qed.

Lemma every_task_displayed_witness :
  ∃ b, build None (Some "To Do|Done") ex_tasks (Ok ex_sections) = Ok b
       ∧ length (displayed b) = 2%nat.
Proof.
  eexists. split; [reflexivity|].
  destruct (every_task_displayed None (Some "To Do|Done") ex_tasks
              (Ok ex_sections) _ eq_refl) as (_ & _ & Honce).
  destruct Honce as [_ ->]; [|reflexivity].
  vm_compute. repeat constructor; set_solver.
Defined.

(** ** The order inside the buckets of the board *)

(** X12: in every bucket of the board the view models are in ascending
    order of their sort key, and the priority the key holds is the
    priority of a task of the listing, read back from the class
    "p<priority>": the fallback 3 of [vm_sort_key] is never needed. *)
Theorem board_buckets_sorted (exclude_env sections_env : option string)
    (tasks_iter : list pyval) (get_sections : result (list pyval))
    (b : board) (k : string) (bucket : list view_model) :
  build exclude_env sections_env tasks_iter get_sections = Ok b →
  tasks_by_section b !! k = Some bucket →
  ascending key3_ltb vm_sort_key bucket
  ∧ (∀ i j vm1 vm2, (i < j)%nat →
       bucket !! i = Some vm1 → bucket !! j = Some vm2 →
       (vm_sort_key vm1).1 ≤ (vm_sort_key vm2).1)
  ∧ (∀ vm, vm ∈ bucket →
       ∃ t, t ∈ _as_list tasks_iter
            ∧ priority_of t = Ok (vm_sort_key vm).1
            ∧ priority_class vm = "p" +:+ pretty (vm_sort_key vm).1).
Proof.
  intros Hb.
  destruct (build_Ok _ _ _ _ _ Hb)
    as (names & sorted & vms & _ & Hsort & Hvms & ->).
  rewrite order_board_lookup, bucket_tasks_lookup.
  repeat case_decide; try done. simpl. intros [= <-].
  pose proof (sort_by_ascending (ltb:=key3_ltb) vm_sort_key
                (filter (λ t, bucket_of (resolve_columns sections_env vms) t
                              = k) vms)) as Hasc.
  fold sort_bucket in Hasc. split; [done|]. split.
  - unfold ascending in Hasc.
    induction Hasc as [|x l _ IH Hx]; intros i j vm1 vm2 Hij H1 H2; [done|].
    destruct j as [|j]; [lia|]. destruct i as [|i]; simpl in H1, H2.
    + injection H1 as ->. rewrite Forall_forall in Hx.
      assert (key3_ltb (vm_sort_key vm2) (vm_sort_key vm1) = false) as Hlt
        by (eapply Hx, list_elem_of_lookup_2, H2).
      destruct (Z.lt_ge_cases (vm_sort_key vm2).1 (vm_sort_key vm1).1)
        as [Hlt'|Hge]; [|simpl in *; lia].
      assert (key3_ltb (vm_sort_key vm2) (vm_sort_key vm1) = true)
        by (apply key3_ltb_spec; auto).
      congruence.
    + eapply (IH i j); [lia|done..].
  - intros vm. rewrite sort_bucket_perm.
    intros [_ [i Hi]%list_elem_of_lookup]%list_elem_of_filter.
    apply view_models_loop_built in Hvms.
    destruct (Forall2_lookup_r _ _ _ _ _ Hvms Hi) as (t & Ht & Hvm).
    exists t. split.
    + apply list_elem_of_lookup_2 in Ht.
      apply list_elem_of_filter in Ht as [_ Ht].
      apply sort_tasks_Ok in Hsort as [-> _]. by rewrite sort_by_perm in Ht.
    + pose proof (vm_sort_key_built _ _ _ _ Hvm) as Hprio.
      split; [done|].
      apply view_model_of_built in Hvm as (prio & Hp & _ & Hc & _).
      rewrite Hp in Hprio. injection Hprio as ->. exact Hc.
Qed.

Lemma board_buckets_sorted_witness :
  match build None (Some "Done") [task_a; task_b; task_b]
          (Ok done_sections) with
  | Ok b =>
      ∃ bucket, tasks_by_section b !! "Done" = Some bucket
                ∧ priority_class <$> bucket = ["p1"; "p1"; "p4"]
                ∧ ascending key3_ltb vm_sort_key bucket
  | Raise _ => False
  end.
Proof.
  destruct (build None (Some "Done") [task_a; task_b; task_b]
              (Ok done_sections)) as [b|] eqn:Hb; [|by vm_compute in Hb].
  assert (∃ bucket, tasks_by_section b !! "Done" = Some bucket
                    ∧ priority_class <$> bucket = ["p1"; "p1"; "p4"])
    as (bucket & Hk & Hclasses).
  { pose proof Hb as Hb'. vm_compute in Hb'. injection Hb' as <-.
    eexists. split; [by vm_compute|reflexivity]. }
  exists bucket. split; [done|]. split; [done|].
  by destruct (board_buckets_sorted _ _ _ _ _ _ _ Hb Hk) as [Hasc _].
Defined.

(** ** More on the helpers *)

Lemma as_list_concat l : _as_list l = concat (contribution <$> l).
Proof. unfold _as_list. by rewrite as_list_loop. Qed.

(** X13: flattening goes page by page: the flat list of two listings one
    after the other is the two flat lists one after the other, a listing
    made of pages (lists) gives the pages joined, and a listing without
    any list in it is returned as it is. *)
Theorem as_list_pages (xs ys : list pyval) (pages : list (list pyval)) :
  _as_list (xs ++ ys) = _as_list xs ++ _as_list ys
  ∧ _as_list (PList <$> pages) = concat pages
  ∧ (forallb (λ item, negb (is_list item)) xs = true → _as_list xs = xs).
Proof.
  rewrite !as_list_concat. split; [|split].
  - by rewrite fmap_app, concat_app.
  - f_equal. induction pages as [|page pages IH]; [done|].
    by rewrite !fmap_cons, IH.
  - induction xs as [|x xs IH]; [done|]. cbn [forallb].
    intros [Hx Hxs]%andb_true_iff. rewrite fmap_cons. cbn [concat].
    rewrite IH by done. by destruct x.
Qed.

Lemma as_list_pages_witness :
  _as_list [PInt 1; PStr "a"; PDict []] = [PInt 1; PStr "a"; PDict []]
  ∧ _as_list (PList <$> [[PInt 1; PInt 2]; []; [PInt 3]])
    = [PInt 1; PInt 2; PInt 3].
Proof.
  destruct (as_list_pages [PInt 1; PStr "a"; PDict []] []
              [[PInt 1; PInt 2]; []; [PInt 3]]) as (_ & Hpages & Hflat).
  split; [by apply Hflat|exact Hpages].
Defined.

(** X14: a due value that is neither a mapping nor an object with one of
    the sub-fields (a bare text, a number, a list) is formatted as the
    empty text, whatever it holds. *)
Theorem format_due_ignores_bare_values (due_obj : pyval) :
  as_dict due_obj = None →
  (∀ name, name ∈ due_fields →
           attr_first due_obj name = Raise AttributeError) →
  _format_due due_obj = Ok EmptyString.
Proof.
  intros Hdict Hattrs. unfold _format_due, getattr3.
  rewrite !Hattrs by (unfold due_fields; set_solver).
  simpl. rewrite Hdict. by destruct (truthy due_obj).
Qed.

Lemma format_due_ignores_bare_values_witness :
  _format_due (PStr "tomorrow") = Ok EmptyString
  ∧ _format_due (PInt 20240101) = Ok EmptyString.
Proof.
  split.
  - by apply (format_due_ignores_bare_values (PStr "tomorrow")).
  - by apply (format_due_ignores_bare_values (PInt 20240101)).
Defined.

Lemma assoc_elem_of {A} k (l : list (string * A)) v :
  assoc k l = Some v → (k, v) ∈ l.
Proof.
  induction l as [|[k' v'] l IH]; simpl; [done|].
  destruct (String.eqb_spec k k') as [->|_].
  - intros [= ->]. left.
  - intros ?%IH. by right.
Qed.

(** X15: for the fields the program reads, on a mapping and on a record
    all of whose attributes are ordinary, the accessor does not raise: it
    returns the attribute when the record has it (also when the mapping
    has the key), else the value of the mapping under the key, else the
    default. *)
Theorem get_on_ordinary_records (obj : pyval) (attr : string)
    (default : pyval) :
  attr ∈ field_names →
  ordinary_record obj = true →
  _get obj attr default
  = Ok (match attr_again obj attr with
        | Ok v => v
        | Raise _ => mapping_or_default obj attr default
        end)
  ∧ (attr_first obj attr = Raise AttributeError
     ↔ attr_again obj attr = Raise AttributeError)
  ∧ (∀ e, attr_again obj attr = Raise e → e = AttributeError).
Proof.
  intros _ Hord.
  assert ((∃ v w, attr_first obj attr = Ok v ∧ attr_again obj attr = Ok w)
          ∨ (attr_first obj attr = Raise AttributeError
             ∧ attr_again obj attr = Raise AttributeError)) as Hcases.
  { destruct obj; try (by right). simpl in *.
    destruct (assoc attr attrs) as [[first again]|] eqn:Hassoc; [|by right].
    apply assoc_elem_of in Hassoc. rewrite forallb_forall in Hord.
    apply list_elem_of_In, Hord in Hassoc. simpl in Hassoc.
    destruct first, again; try done. left. eauto. }
  destruct Hcases as [(v & w & Hfirst & Hagain)|[Hfirst Hagain]].
  - rewrite Hagain. split; [by eapply get_attribute|].
    rewrite Hfirst. split; [done|]. by intros e.
  - rewrite Hagain. split; [by apply get_no_attribute|].
    rewrite Hfirst. split; [done|]. by intros e [= <-].
Qed.

Lemma get_on_ordinary_records_witness :
  _get dict_with_attribute "priority" (PInt 3) = Ok (PInt 4)
  ∧ _get dict_with_attribute "content" (PStr "none") = Ok (PStr "none")
  ∧ _get (PDict [("priority", PNone)]) "priority" (PInt 3) = Ok PNone.
Proof.
  split; [|split].
  - apply (get_on_ordinary_records dict_with_attribute "priority" (PInt 3));
      [unfold field_names; set_solver|done].
  - apply (get_on_ordinary_records dict_with_attribute "content"
             (PStr "none")); [unfold field_names; set_solver|done].
  - apply (get_on_ordinary_records (PDict [("priority", PNone)])
             "priority" (PInt 3)); [unfold field_names; set_solver|done].
Defined.

(** ** Discovered columns *)

Lemma sections_of_nonempty view_models :
  Forall (λ vm, section vm ≠ EmptyString) view_models →
  sections_of view_models = section <$> view_models.
Proof.
  unfold sections_of. induction 1 as [|vm vms Hvm _ IH]; [done|].
  by rewrite fmap_cons, filter_cons_True, IH.
Qed.

Lemma not_in_take {A} (x : A) (l : list A) n :
  x ∈ l → x ∉ take n l → (n < length l)%nat.
Proof.
  intros Hin Hnot. destruct (decide (n < length l)%nat); [done|].
  by rewrite take_ge in Hnot by lia.
Qed.

(** X16: with [SECTIONS] unset there are exactly five titles, and a view
    model gets the column of its own section exactly when that section is
    one of the first five distinct sections, in the order of the view
    models; from the sixth distinct section on, view models go to
    "Other". *)
Theorem sixth_section_overflows (sections_env : option string)
    (view_models : list view_model) (vm : view_model) :
  getenv_stripped sections_env = EmptyString →
  Forall (λ vm, section vm ≠ EmptyString) view_models →
  vm ∈ view_models →
  length (resolve_columns sections_env view_models) = 5%nat
  ∧ bucket_of (resolve_columns sections_env view_models) vm
    = if decide (section vm ∈ take 5 (first_seen (section <$> view_models)))
      then section vm else other_col.
Proof.
  intros Hunset Hall Hvm.
  rewrite resolve_columns_base. unfold base_titles.
  rewrite Hunset, decide_False by (by intros []).
  rewrite sections_of_nonempty by done.
  set (seen := first_seen (section <$> view_models)).
  split.
  { rewrite length_app, padding_length, length_take. lia. }
  assert (section vm ∈ seen) as Hseen.
  { apply elem_of_first_seen, list_elem_of_fmap. by exists vm. }
  unfold bucket_of.
  rewrite Forall_forall in Hall. specialize (Hall vm Hvm).
  apply String.eqb_neq in Hall. rewrite Hall.
  destruct (decide (section vm ∈ take 5 seen)) as [Hin|Hnot].
  - by rewrite decide_True by (apply elem_of_app; by left).
  - rewrite decide_False; [done|].
    pose proof (not_in_take _ _ _ Hseen Hnot) as Hlong.
    rewrite elem_of_app. intros [?|Hpad]; [done|].
    unfold padding in Hpad. rewrite length_take in Hpad.
    replace (5 - 5 `min` length seen)%nat with 0%nat in Hpad by lia.
    by apply elem_of_nil in Hpad.
Qed.

Lemma sixth_section_overflows_witness :
  bucket_of (resolve_columns None six_sections) (view_model_in "f") = "Other"
  ∧ bucket_of (resolve_columns None six_sections) (view_model_in "e") = "e".
Proof.
  assert (Forall (λ vm, section vm ≠ EmptyString) six_sections) as Hall
    by (repeat constructor; done).
  split.
  - destruct (sixth_section_overflows None six_sections (view_model_in "f")
                eq_refl Hall) as [_ ->]; [|done].
    unfold six_sections. set_solver.
  - destruct (sixth_section_overflows None six_sections (view_model_in "e")
                eq_refl Hall) as [_ ->]; [|done].
    unfold six_sections. set_solver.
Defined.

(** ** A task that cannot be shown *)

(** X17: when turning one task of the listing into a view model raises,
    [build] raises too and returns no board at all: one task that cannot
    be shown aborts the page for every task.  ([content_not_text] below
    gives such tasks: a truthy content that is not a text.) *)
Theorem malformed_task_aborts (exclude_env sections_env : option string)
    (tasks_iter : list pyval) (get_sections : result (list pyval))
    (names : gmap string pyval) (t : pyval) (e : pyexn) :
  section_name_by_id get_sections = Ok names →
  t ∈ _as_list tasks_iter →
  view_model_of (parse_exclude (getenv_stripped exclude_env)) names t
  = Raise e →
  ∃ e', build exclude_env sections_env tasks_iter get_sections = Raise e'.
Proof.
  intros Hnames Hin Hraise.
  destruct (build exclude_env sections_env tasks_iter get_sections)
    as [b|e'] eqn:Hb; [|by eexists].
  destruct (build_Ok _ _ _ _ _ Hb)
    as (names' & sorted & vms & Hnames' & Hsort & Hvms & _).
  rewrite Hnames in Hnames'. injection Hnames' as <-.
  apply view_models_loop_built in Hvms.
  assert (t ∈ filter (λ t, is_excluded
                             (parse_exclude (getenv_stripped exclude_env)) t
                           = false) sorted) as Hkept.
  { apply list_elem_of_filter. split.
    - destruct (is_excluded _ t) eqn:Hex; [|done].
      apply view_model_of_excluded with (names:=names) in Hex. congruence.
    - apply sort_tasks_Ok in Hsort as [-> _]. by rewrite sort_by_perm. }
  apply list_elem_of_lookup in Hkept as [i Hi].
  destruct (Forall2_lookup_l _ _ _ _ _ Hvms Hi) as (vm & _ & Hvm).
  congruence.
Qed.

Lemma content_not_text exclude_set names t c prio :
  priority_of t = Ok prio → prio ∉ exclude_set →
  _get t "content" (PStr EmptyString) = Ok c →
  truthy c = true → (∀ text, c ≠ PStr text) →
  view_model_of exclude_set names t = Raise AttributeError.
Proof.
  intros Hprio Hin Hc Htruthy Htext. unfold view_model_of.
  rewrite Hprio. simpl. rewrite decide_False by done.
  rewrite Hc. simpl. unfold por. rewrite Htruthy.
  destruct c; try done. by destruct (Htext s).
Qed.

Lemma malformed_task_aborts_witness :
  view_model_of (parse_exclude (getenv_stripped None)) ∅ number_task
  = Raise AttributeError
  ∧ ∃ e', build None None [task_a; number_task; task_b]
            (Raise OtherException) = Raise e'.
Proof.
  assert (view_model_of (parse_exclude (getenv_stripped None)) ∅ number_task
          = Raise AttributeError) as Hraise.
  { by apply (content_not_text _ _ _ (PInt 5) 3). }
  split; [exact Hraise|].
  apply (malformed_task_aborts None None [task_a; number_task; task_b]
           (Raise OtherException) ∅ number_task AttributeError);
    [reflexivity| |exact Hraise].
  right. left.
Defined.
